(** * The campaign/lead/inscription ETL: a shallow embedding and its properties

    The development follows [src/etl/prepare_dataset.py] and
    [src/etl/upload_to_mongo.py]:

    - [PyStr]     Python [str] values as lists of code points, with the
                  [str.replace] and [str.strip] methods the currency parser calls;
    - [PyFloat]   the text grammar of the builtin [float];
    - [Etl]       [parse_currency], the two left merges, [detect_anomaly] and
                  [prepare_dataset];
    - [Frames]    data frames held in a store of objects, and
                  [sanitize_dataframe] as a program over that store;
    - [Mongo]     the environment, the document server and
                  [upload_dataframe_to_mongo];
    - [Samples], [FrameSamples]   concrete inputs for the examples.

    The properties follow the definitions: the left merge, the enrichment
    seen row by row, the classifier and the flags, the currency parser, the
    record count, [sanitize_dataframe] and the upload. *)

From Stdlib Require Import ZArith QArith Lia.
From Stdlib Require Ascii String.
From stdpp Require Import base option list gmap strings.

Local Open Scope Z_scope.

(** ** Exceptions and the error monad *)

(** The exception of the model is the [ValueError] of [float] and of
    [pd.to_datetime]; the message is not modelled.
    [upload_dataframe_to_mongo] raises [ValueError] itself.  The
    [OverflowError] of a timestamp subtraction that leaves the int64 range
    has no counterpart here (see [days_between]): what is proved about a
    call that returns, or that raises on a malformed cell, does not depend
    on it. *)
Inductive exn := ValueError.

Inductive result (A : Type) :=
  | Ok (a : A)
  | Raise (e : exn).
Arguments Ok {A} a.
Arguments Raise {A} e.

#[global] Instance result_ret : MRet result := fun A a => Ok a.
#[global] Instance result_bind : MBind result := fun A B f m =>
  match m with
  | Ok a => f a
  | Raise e => Raise e
  end.
#[global] Instance result_fmap : FMap result := fun A B f m =>
  match m with
  | Ok a => Ok (f a)
  | Raise e => Raise e
  end.

(** The error taxonomy of the specification, and where the exceptions of the
    code fall in it. *)
Inductive spec_error := ParseError | IntegrityError.

Definition classify (e : exn) : spec_error :=
  match e with
  | ValueError => ParseError
  end.

(** ** Python strings *)

Module PyStr.

(** A [str] is a sequence of Unicode code points. *)
Definition pystr := list N.

(** Literals are written as UTF-8 text and decoded. *)
Fixpoint utf8_dec (need : nat) (acc : N) (bs : list N) : pystr :=
  match bs with
  | [] => []
  | b :: r =>
      match need with
      | S k =>
          let acc' := (acc * 64 + b mod 64)%N in
          match k with
          | O => acc' :: utf8_dec 0 0%N r
          | S _ => utf8_dec k acc' r
          end
      | O =>
          if (b <? 128)%N then b :: utf8_dec 0 0%N r
          else if (b <? 224)%N then utf8_dec 1 (b mod 32)%N r
          else if (b <? 240)%N then utf8_dec 2 (b mod 16)%N r
          else utf8_dec 3 (b mod 8)%N r
      end
  end.

Definition lit (s : string) : pystr :=
  utf8_dec 0 0%N (map Ascii.N_of_ascii (String.list_ascii_of_string s)).

Definition EURO : N := 8364%N.   (* "€" *)
Definition NBSP : N := 160%N.    (* "\xa0" *)
Definition DOT : N := 46%N.      (* "." *)
Definition COMMA : N := 44%N.    (* "," *)

Fixpoint starts_with (p s : pystr) : bool :=
  match p, s with
  | [], _ => true
  | _ :: _, [] => false
  | a :: p', b :: s' => (a =? b)%N && starts_with p' s'
  end.

(** [s.replace(old, new)] for a non-empty [old]: the occurrences are found
    left to right and do not overlap; [skip] counts the characters of the
    occurrence just replaced that are still to be passed over. *)
Fixpoint replace_from (old new : pystr) (skip : nat) (s : pystr) : pystr :=
  match s with
  | [] => []
  | c :: t =>
      match skip with
      | S k => replace_from old new k t
      | O =>
          if starts_with old s
          then new ++ replace_from old new (length old - 1) t
          else c :: replace_from old new 0 t
      end
  end.

(** With an empty [old], Python inserts [new] before every character and at
    the end. *)
Definition replace (old new s : pystr) : pystr :=
  match old with
  | [] => flat_map (fun c => new ++ [c]) s ++ new
  | _ :: _ => replace_from old new 0 s
  end.

(** [str.isspace] on one code point (Unicode 14 white space, as CPython 3.11
    has it). *)
Definition isspace (c : N) : bool :=
  ((9 <=? c) && (c <=? 13) || (28 <=? c) && (c <=? 32)
   || (c =? 133) || (c =? 160) || (c =? 5760)
   || (8192 <=? c) && (c <=? 8202)
   || (c =? 8232) || (c =? 8233) || (c =? 8239) || (c =? 8287)
   || (c =? 12288))%N.

Fixpoint lstrip_by (sp : N -> bool) (s : pystr) : pystr :=
  match s with
  | [] => []
  | c :: t => if sp c then lstrip_by sp t else s
  end.

Definition rstrip_by (sp : N -> bool) (s : pystr) : pystr :=
  rev (lstrip_by sp (rev s)).

Definition strip_by (sp : N -> bool) (s : pystr) : pystr :=
  rstrip_by sp (lstrip_by sp s).

(** [s.strip()] *)
Definition strip (s : pystr) : pystr := strip_by isspace s.

End PyStr.
Import PyStr.

(** ** The builtin [float] on text *)

Module PyFloat.

(** A [float].  A finite value is kept as the decimal its text denotes:
    CPython rounds that decimal to the nearest binary64, the same rounding a
    float literal of the program goes through, so two texts denoting the
    same decimal give floats that compare equal.  Overflow to infinity, the
    loss of digits beyond binary64 and the sign of zero are not modelled. *)
Inductive pyfloat :=
  | FNum (q : Q)
  | FInf (negative : bool)
  | FNaN.

(** [math.isnan], which is what [pd.isna] tests on a float. *)
Definition isnan (x : pyfloat) : bool :=
  match x with
  | FNaN => true
  | _ => false
  end.

(** [x == y] on floats: NaN equals nothing. *)
Definition float_eq (x y : pyfloat) : bool :=
  match x, y with
  | FNum p, FNum q => Qeq_bool p q
  | FInf a, FInf b => Bool.eqb a b
  | _, _ => false
  end.

(** First code point of each run of ten decimal digits (category Nd,
    Unicode 14). *)
Definition decimal_zeros : list N :=
  [48; 1632; 1776; 1984; 2406; 2534; 2662; 2790; 2918; 3046; 3174; 3302;
   3430; 3558; 3664; 3792; 3872; 4160; 4240; 6112; 6160; 6470; 6608; 6784;
   6800; 6992; 7088; 7232; 7248; 42528; 43216; 43264; 43472; 43504; 43600;
   44016; 65296; 66720; 68912; 69734; 69872; 69942; 70096; 70384; 70736;
   70864; 71248; 71360; 71472; 71904; 72016; 72784; 73040; 73120; 92768;
   92864; 93008; 120782; 120792; 120802; 120812; 120822; 123200; 123632;
   125264; 130032]%N.

Definition todecimal (c : N) : option N :=
  (fun z => (c - z)%N)
    <$> List.find (fun z => (z <=? c) && (c <? z + 10))%N decimal_zeros.

(** The conversion CPython applies to the text before parsing: white space
    becomes a blank, any decimal digit its ASCII digit, and the text is cut
    with a question mark at the first other character above ASCII. *)
Fixpoint to_ascii (s : pystr) : pystr :=
  match s with
  | [] => []
  | c :: t =>
      if (c <? 127)%N then c :: to_ascii t
      else if isspace c then 32%N :: to_ascii t
      else match todecimal c with
           | Some d => (48 + d)%N :: to_ascii t
           | None => [63%N]
           end
  end.

(** The C-locale [isspace]. *)
Definition c_isspace (c : N) : bool :=
  ((9 <=? c) && (c <=? 13) || (c =? 32))%N.

Definition is_digit (c : N) : bool := ((48 <=? c) && (c <=? 57))%N.

Definition UNDERSCORE : N := 95%N.

(** Underscores may only stand between two digits; they are removed. *)
Fixpoint drop_underscores (prev : N) (s : pystr) : option pystr :=
  match s with
  | [] => if (prev =? UNDERSCORE)%N then None else Some []
  | c :: t =>
      if (c =? UNDERSCORE)%N then
        if is_digit prev then drop_underscores c t else None
      else if (prev =? UNDERSCORE)%N && negb (is_digit c) then None
      else (cons c) <$> drop_underscores c t
  end.

(** The longest run of digits at the head, as digit values, and the rest. *)
Fixpoint span_digits (s : pystr) : list N * pystr :=
  match s with
  | [] => ([], [])
  | c :: t =>
      if is_digit c
      then let '(ds, r) := span_digits t in ((c - 48)%N :: ds, r)
      else ([], s)
  end.

Definition digits_value (ds : list N) : N :=
  fold_left (fun a d => (10 * a + d)%N) ds 0%N.

Definition take_sign (s : pystr) : bool * pystr :=
  match s with
  | 45%N :: t => (true, t)
  | 43%N :: t => (false, t)
  | _ => (false, s)
  end.

(** The value [(-1)^neg * m * 10^e]. *)
Definition decimal_value (neg : bool) (m : N) (e : Z) : pyfloat :=
  let a := (inject_Z (Z.of_N m) * Qpower (10 # 1) e)%Q in
  FNum (if neg then Qopp a else a).

(** [sign? (digits ("." digits?)? | "." digits) (("e"|"E") sign? digits)?],
    the whole text. *)
Definition parse_number (s : pystr) : option pyfloat :=
  let '(neg, s1) := take_sign s in
  let '(ip, s2) := span_digits s1 in
  let '(fp, s3) :=
    match s2 with
    | 46%N :: t => span_digits t
    | _ => ([], s2)
    end in
  match ip ++ fp with
  | [] => None
  | _ :: _ =>
      let m := digits_value (ip ++ fp) in
      let scale := Z.of_nat (length fp) in
      match s3 with
      | [] => Some (decimal_value neg m (- scale))
      | c :: t =>
          if ((c =? 101) || (c =? 69))%N then
            let '(eneg, s4) := take_sign t in
            let '(ed, s5) := span_digits s4 in
            match ed, s5 with
            | _ :: _, [] =>
                let e := Z.of_N (digits_value ed) in
                Some (decimal_value neg m ((if eneg then - e else e) - scale))
            | _, _ => None
            end
          else None
      end
  end.

Definition tolower (c : N) : N :=
  if ((65 <=? c) && (c <=? 90))%N then (c + 32)%N else c.

(** [sign? ("inf" | "infinity" | "nan")], any letter case. *)
Definition parse_inf_or_nan (s : pystr) : option pyfloat :=
  let '(neg, s1) := take_sign s in
  let l := map tolower s1 in
  if bool_decide (l = lit "inf") || bool_decide (l = lit "infinity")
  then Some (FInf neg)
  else if bool_decide (l = lit "nan") then Some FNaN
  else None.

Definition parse_float (s : pystr) : option pyfloat :=
  t ← drop_underscores 0%N (strip_by c_isspace (to_ascii s));
  match parse_number t with
  | Some x => Some x
  | None => parse_inf_or_nan t
  end.

(** [float(s)] for a [str] argument. *)
Definition float (s : pystr) : result pyfloat :=
  match parse_float s with
  | Some x => Ok x
  | None => Raise ValueError
  end.

End PyFloat.
Import PyFloat.


(** ** The enrichment: [prepare_dataset.py] *)

Module Etl.

(** [parse_currency(euro_str)].  [None] is a cell for which [pd.isna] holds;
    the null result is the float NaN. *)
Definition normalise (euro_str : pystr) : pystr :=
  strip (replace [COMMA] [DOT]
          (replace [DOT] []
            (replace [NBSP] []
              (replace [EURO] [] euro_str)))).

Definition parse_currency (euro_str : option pystr) : result pyfloat :=
  match euro_str with
  | None => Ok FNaN
  | Some s => float (normalise s)
  end.

(** A join key; [None] is a null key. *)
Definition key := option pystr.

(** A cell of a date column as loaded: null, already a timestamp
    (nanoseconds since the epoch), or text still to be parsed. *)
Inductive date_cell :=
  | DNull
  | DStamp (ns : Z)
  | DText (s : pystr).

(** Modelled from the spec: the columns of the three input frames, which
    come from data files that are not part of the sources (section 3 and
    section 6 of the specification; [name] is the campaign column the
    dashboard reads). *)
Record Campaign := mkCampaign {
  campaign_id : key;
  name : option pystr }.

Record Lead := mkLead {
  lead_id : key;
  input_channel : key;
  created_at : date_cell;
  cost : option pystr }.

Record Inscription := mkInscription {
  insc_lead_id : key;
  insc_created_at : date_cell;
  amount : option pystr }.

(** The rows of the right frame whose key equals [k].  Null keys match each
    other, as pandas has it. *)
Definition matching {R : Type} (right_on : R -> key) (k : key)
    (right : list R) : list R :=
  filter (fun r => right_on r = k) right.

(** The rows one left row contributes to a left merge: one per matching right
    row, in the order of the right frame, or one with nulls when nothing
    matches. *)
Definition block {L R : Type} (left_on : L -> key) (right_on : R -> key)
    (right : list R) (l : L) : list (L * option R) :=
  match matching right_on (left_on l) right with
  | [] => [(l, None)]
  | ms => (fun r => (l, Some r)) <$> ms
  end.

(** [left.merge(right, left_on=.., right_on=.., how="left")]: the rows of
    [left] in their order, each with its matches. *)
Definition merge_left {L R : Type} (left_on : L -> key) (right_on : R -> key)
    (left : list L) (right : list R) : list (L * option R) :=
  flat_map (block left_on right_on right) left.

(** A row of the frame after both merges. *)
Abbreviation Joined := (Lead * option Campaign * option Inscription)%type.

Definition j_lead (j : Joined) : Lead := j.1.1.
Definition j_campaign (j : Joined) : option Campaign := j.1.2.
Definition j_inscription (j : Joined) : option Inscription := j.2.

(** The columns of the merged frame that the enrichment reads. *)
Definition col_created_at (j : Joined) : date_cell := created_at (j_lead j).
Definition col_created_at_insc (j : Joined) : date_cell :=
  from_option insc_created_at DNull (j_inscription j).
Definition col_cost (j : Joined) : option pystr := cost (j_lead j).
Definition col_amount (j : Joined) : option pystr := j_inscription j ≫= amount.

(** A timestamp of a [datetime64] column; [None] is NaT. *)
Definition timestamp := option Z.

Definition NS_PER_DAY : Z := 86400 * 1000000000.
Definition NS_PER_HOUR : Z := 3600 * 1000000000.

(** [(a - b).dt.days]: the whole days of the difference, rounded down; NaN
    when either side is NaT.  The difference is taken in the integers; the
    code raises [OverflowError] when it does not fit 64 bits, which is not
    modelled. *)
Definition days_between (a b : timestamp) : option Z :=
  match a, b with
  | Some x, Some y => Some ((x - y) `div` NS_PER_DAY)
  | _, _ => None
  end.

(** [x >= 0] and [x < 0] on a column that holds NaN for missing values: both
    are false on NaN. *)
Definition ge_zero (x : option Z) : bool :=
  match x with
  | Some d => bool_decide (0 ≤ d)
  | None => false
  end.

Definition lt_zero (x : option Z) : bool :=
  match x with
  | Some d => bool_decide (d < 0)
  | None => false
  end.

Definition isna (t : timestamp) : bool :=
  match t with
  | Some _ => false
  | None => true
  end.

Inductive anomaly :=
  | NO_ANOMALY
  | MISSING_INSCRIPTION_DATE
  | NEGATIVE_CONVERSION_TIME.

(** [detect_anomaly(row)], on the three columns of the row that it reads. *)
Definition detect_anomaly (row_converted : bool)
    (row_inscription_created_at : timestamp)
    (row_conversion_time_days : option Z) : anomaly :=
  if row_converted && isna row_inscription_created_at
  then MISSING_INSCRIPTION_DATE
  else if row_converted && lt_zero row_conversion_time_days
  then NEGATIVE_CONVERSION_TIME
  else NO_ANOMALY.

Record EnrichedRecord := mkEnriched {
  source : Joined;
  lead_created_at : timestamp;
  inscription_created_at : timestamp;
  cost_float : pyfloat;
  amount_float : pyfloat;
  conversion_time_days : option Z;
  converted : bool;
  conversion_valid : bool;
  conversion_anomaly_type : anomaly }.

(** The rows of the frame, from its columns. *)
Definition records (df : list Joined) (c_lead c_insc : list timestamp)
    (c_cost c_amount : list pyfloat) (c_days : list (option Z))
    (c_converted c_valid : list bool) (c_anomaly : list anomaly)
    : list EnrichedRecord :=
  zip_with (fun '(j, a, b, c, d) '(e, f, g, h) => mkEnriched j a b c d e f g h)
    (zip (zip (zip (zip df c_lead) c_insc) c_cost) c_amount)
    (zip (zip (zip c_days c_converted) c_valid) c_anomaly).

Section Enrichment.

(** The date parser of [pd.to_datetime] on text: the timestamp, or [None]
    for text it rejects. *)
Variable parse_date : pystr -> option Z.

Definition to_datetime_scalar (c : date_cell) : result timestamp :=
  match c with
  | DNull => Ok None
  | DStamp ns => Ok (Some ns)
  | DText s =>
      match parse_date s with
      | Some ns => Ok (Some ns)
      | None => Raise ValueError
      end
  end.

(** [pd.to_datetime(column)]: raises on the first text it rejects.  Each
    text is parsed on its own here; pandas 2 and later take one format from
    the first text of the column and raise on a later text that does not
    follow it, so the code can raise where this returns.  It never returns
    where this raises. *)
Definition to_datetime (column : list date_cell) : result (list timestamp) :=
  mapM to_datetime_scalar column.

(** The body of [prepare_dataset] after the merges, column by column. *)
Definition enrich (df : list Joined) : result (list EnrichedRecord) :=
  c_lead ← to_datetime (col_created_at <$> df);
  c_insc ← to_datetime (col_created_at_insc <$> df);
  c_cost ← mapM parse_currency (col_cost <$> df);
  c_amount ← mapM parse_currency (col_amount <$> df);
  let c_days := zip_with days_between c_insc c_lead in
  let c_converted := (fun t => negb (isna t)) <$> c_insc in
  let c_valid := ge_zero <$> c_days in
  let c_anomaly :=
    zip_with (fun '(cv, t) d => detect_anomaly cv t d)
      (zip c_converted c_insc) c_days in
  Ok (records df c_lead c_insc c_cost c_amount c_days
        c_converted c_valid c_anomaly).

Definition prepare_dataset (campaigns : list Campaign) (leads : list Lead)
    (inscriptions : list Inscription) : result (list EnrichedRecord) :=
  let leads_campaigns := merge_left input_channel campaign_id leads campaigns in
  let df := merge_left (fun lc => lead_id lc.1) insc_lead_id
              leads_campaigns inscriptions in
  enrich df.

(** The same computation seen one row at a time; the proofs go through
    this view ([enrich_rowwise] below relates the two). *)
Definition derive (j : Joined) (lc ic : timestamp) (cf af : pyfloat)
    : EnrichedRecord :=
  let days := days_between ic lc in
  let cv := negb (isna ic) in
  mkEnriched j lc ic cf af days cv (ge_zero days) (detect_anomaly cv ic days).

Definition enrich_row (j : Joined) : result EnrichedRecord :=
  lc ← to_datetime_scalar (col_created_at j);
  ic ← to_datetime_scalar (col_created_at_insc j);
  cf ← parse_currency (col_cost j);
  af ← parse_currency (col_amount j);
  Ok (derive j lc ic cf af).

End Enrichment.

(** The frame after both merges. *)
Definition joined (campaigns : list Campaign) (leads : list Lead)
    (inscriptions : list Inscription) : list Joined :=
  merge_left (fun lc => lead_id lc.1) insc_lead_id
    (merge_left input_channel campaign_id leads campaigns) inscriptions.

(** What the specification's character-level description of the
    normalisation says: drop the currency symbol, non-breaking spaces and
    the thousands separator, turn the decimal comma into a point, trim. *)
Definition spec_translate (c : N) : pystr :=
  if ((c =? EURO) || (c =? NBSP) || (c =? DOT))%N then []
  else if (c =? COMMA)%N then [DOT]
  else [c].

Definition spec_normalise (s : pystr) : pystr :=
  strip (flat_map spec_translate s).


Definition fails_with {A : Type} (r : result A) (k : spec_error) : Prop :=
  ∃ e, r = Raise e ∧ classify e = k.

(** How many records of the output a lead accounts for. *)
Definition multiplicity (campaigns : list Campaign)
    (inscriptions : list Inscription) (ld : Lead) : nat :=
  (Nat.max 1 (length (matching campaign_id (input_channel ld) campaigns))
   * Nat.max 1 (length (matching insc_lead_id (lead_id ld) inscriptions)))%nat.

(** Cells on which the conversions of the enrichment do not raise. *)
Definition date_ok (parse_date : pystr -> option Z) (c : date_cell) : Prop :=
  ∃ t, to_datetime_scalar parse_date c = Ok t.

Definition currency_ok (c : option pystr) : Prop :=
  ∃ x, parse_currency c = Ok x.

End Etl.
Import Etl.


(** ** Data frames as objects: [sanitize_dataframe] *)

Module Frames.

(** The dtype of a column.  [Datetime64] is datetime64[ns] and [DatetimeTZ]
    a time-zone aware datetime; [Datetime64Other] is a datetime64 of another
    unit (s, ms, us), which pandas 2 and later have. *)
Inductive dtype :=
  | Datetime64
  | DatetimeTZ
  | Datetime64Other
  | Float64
  | Int64
  | BoolT
  | Object.

(** A value held in a column. *)
Inductive cell :=
  | CNone                      (* None *)
  | CNaT                       (* pd.NaT *)
  | CTimestamp (ns : Z)
  | CFloat (x : pyfloat)       (* CFloat FNaN is NaN *)
  | CInt (z : Z)
  | CBool (b : bool)
  | CStr (s : pystr).

(** [pd.isnull] on one value. *)
Definition isnull (c : cell) : bool :=
  match c with
  | CNone | CNaT => true
  | CFloat x => isnan x
  | _ => false
  end.

Record Series := mkSeries {
  s_dtype : dtype;
  s_values : list cell }.

(** A frame: its number of rows and its columns by name. *)
Record DataFrame := mkFrame {
  n_rows : nat;
  columns : gmap string Series }.

#[global] Instance series_inhabited : Inhabited Series :=
  populate (mkSeries Object []).
#[global] Instance frame_inhabited : Inhabited DataFrame :=
  populate (mkFrame 0 ∅).

(** *** Operations that build new values *)

(** The dtypes that the selection of [sanitize_dataframe] names:
    "datetime64[ns]" and "datetimetz".  A datetime64 column of another unit
    is not among them. *)
Definition is_datetime (s : Series) : bool :=
  match s_dtype s with
  | Datetime64 | DatetimeTZ => true
  | _ => false
  end.

(** [s.astype(object)] *)
Definition astype_object (s : Series) : Series :=
  mkSeries Object (s_values s).

(** [s.notnull()] *)
Definition notnull (s : Series) : list bool :=
  (fun c => negb (isnull c)) <$> s_values s.

(** [s.where(cond, other)] on a column of dtype object. *)
Definition series_where (s : Series) (cond : list bool) (other : cell) : Series :=
  mkSeries (s_dtype s)
    (zip_with (fun v (c : bool) => if c then v else other) (s_values s) cond).

Definition is_object (s : Series) : bool :=
  match s_dtype s with
  | Object => true
  | _ => false
  end.

Definition fix_null (c : cell) : cell := if isnull c then CNone else c.

(** One column of [df.where(pd.notnull(df), None)].  In a column of dtype
    object the nulls become [None].  For the other dtypes the outcome depends
    on the pandas release: up to 1.2 [None] is stored and a column in which a
    value was replaced is cast to object; from 1.3 on [None] stands for the
    missing value of the column's own dtype and the column is left as it is.
    [none_casts] selects the former. *)
Definition column_where_notnull_none (none_casts : bool) (s : Series) : Series :=
  if is_object s || none_casts then
    mkSeries
      (if forallb (fun c => negb (isnull c)) (s_values s) then s_dtype s else Object)
      (fix_null <$> s_values s)
  else s.

(** *** The store of objects *)

Abbreviation loc := positive.
Abbreviation heap := (gmap loc DataFrame).

Definition St (A : Type) : Type := heap -> A * heap.

#[global] Instance St_ret : MRet St := fun A a h => (a, h).
#[global] Instance St_bind : MBind St := fun A B f m h =>
  let '(a, h') := m h in f a h'.

Definition alloc (f : DataFrame) : St loc :=
  fun h => let l := fresh (dom h) in (l, <[l := f]> h).

Definition deref (l : loc) : St DataFrame :=
  fun h => (h !!! l, h).

(** [df.copy()] *)
Definition copy (df : loc) : St loc :=
  f ← deref df; alloc f.

(** [df.select_dtypes(include=["datetime64[ns]", "datetimetz"]).columns] *)
Definition select_datetime_columns (df : loc) : St (list string) :=
  f ← deref df;
  mret (map_to_list (filter (fun kv => is_datetime kv.2 = true) (columns f))).*1.

(** [df[col]] *)
Definition getitem (df : loc) (col : string) : St Series :=
  f ← deref df; mret (columns f !!! col).

(** [df[col] = s]: the frame object itself is updated. *)
Definition setitem (df : loc) (col : string) (s : Series) : St unit :=
  fun h => (tt, alter (fun f => mkFrame (n_rows f) (<[col := s]> (columns f))) df h).

Fixpoint for_each {A : Type} (l : list A) (body : A -> St unit) : St unit :=
  match l with
  | [] => mret tt
  | x :: l' => _ ← body x; for_each l' body
  end.

(** The assignment of the loop body to one datetime column. *)
Definition datetime_to_object (s : Series) : Series :=
  series_where (astype_object s) (notnull s) CNone.

(** The columns after the loop has run over the names [cols]. *)
Definition loop_columns (cols : list string) (m : gmap string Series)
    : gmap string Series :=
  foldl (fun m col => <[col := datetime_to_object (m !!! col)]> m) m cols.

Section Sanitize.

(** The behaviour of the installed pandas on [None] as a fill value, see
    [column_where_notnull_none]. *)
Variable none_casts : bool.

(** [df.where(pd.notnull(df), None)]: a new frame. *)
Definition where_notnull_none (df : loc) : St loc :=
  f ← deref df;
  alloc (mkFrame (n_rows f) (column_where_notnull_none none_casts <$> columns f)).

Definition sanitize_dataframe (df : loc) : St loc :=
  df_sanitized ← copy df;
  datetime_cols ← select_datetime_columns df_sanitized;
  _ ← for_each datetime_cols (fun col =>
        s ← getitem df_sanitized col;
        setitem df_sanitized col
          (series_where (astype_object s) (notnull s) CNone));
  df_sanitized ← where_notnull_none df_sanitized;
  mret df_sanitized.

(** What the program computes, as a function on frame values. *)
Definition sanitize_series (s : Series) : Series :=
  column_where_notnull_none none_casts
    (if is_datetime s then datetime_to_object s else s).

Definition sanitize_frame (f : DataFrame) : DataFrame :=
  mkFrame (n_rows f) (sanitize_series <$> columns f).

End Sanitize.

(** [df.to_dict("records")]: one dictionary per row. *)
Definition doc := gmap string cell.

Definition to_dict_records (f : DataFrame) : list doc :=
  (fun i => (fun s => default (CFloat FNaN) (s_values s !! i)) <$> columns f)
    <$> seq 0 (n_rows f).

End Frames.
Import Frames.

(** ** The upload: [upload_to_mongo.py] *)

Module Mongo.

(** A collection is reached through a connection string, a database name
    and a collection name. *)
Definition coll_ref : Type := string * string * string.

Inductive message :=
  | Uploaded (n : nat) (db_name collection_name : string)
  | NoRecordsToUpload.

Record world := mkWorld {
  environ : gmap string string;       (* the process environment *)
  dotenv : gmap string string;        (* the contents of the .env file *)
  server : gmap coll_ref (list doc);  (* the documents of each collection *)
  stdout : list message }.

Definition documents (w : world) (c : coll_ref) : list doc :=
  default [] (server w !! c).

(** [load_dotenv()]: variables already set are kept. *)
Definition load_dotenv (w : world) : world :=
  mkWorld (environ w ∪ dotenv w) (dotenv w) (server w) (stdout w).

(** [not os.getenv(k)]: unset or empty. *)
Definition falsy (v : option string) : bool :=
  match v with
  | None => true
  | Some s => bool_decide (s = "")
  end.

(** [collection.delete_many({})] *)
Definition delete_many_all (c : coll_ref) (w : world) : world :=
  mkWorld (environ w) (dotenv w) (<[c := []]> (server w)) (stdout w).

(** [collection.insert_many(records)], for records the driver can encode.
    On a value it cannot encode (NaT is one) the driver raises after having
    stored the records before it; that is not modelled. *)
Definition insert_many (c : coll_ref) (records : list doc) (w : world) : world :=
  mkWorld (environ w) (dotenv w)
    (<[c := documents w c ++ records]> (server w)) (stdout w).

Definition print (m : message) (w : world) : world :=
  mkWorld (environ w) (dotenv w) (server w) (stdout w ++ [m]).

Definition is_empty {A : Type} (l : list A) : bool :=
  match l with
  | [] => true
  | _ :: _ => false
  end.

Definition upload_dataframe_to_mongo (df : DataFrame) (drop_existing : bool)
    (w : world) : result unit * world :=
  let w := load_dotenv w in
  let mongo_uri := environ w !! "MONGO_URI" in
  let db_name := environ w !! "MONGO_DB" in
  let collection_name := environ w !! "MONGO_COLLECTION" in
  if falsy mongo_uri || falsy db_name || falsy collection_name
  then (Raise ValueError, w)
  else
    let db := default "" db_name in
    let coll := default "" collection_name in
    let collection : coll_ref := (default "" mongo_uri, db, coll) in
    let w := if drop_existing then delete_many_all collection w else w in
    let records := to_dict_records df in
    if negb (is_empty records)
    then (Ok tt, print (Uploaded (length records) db coll)
                   (insert_many collection records w))
    else (Ok tt, print NoRecordsToUpload w).

End Mongo.
Import Mongo.

(** ** Sample inputs *)

Module Samples.

Definition no_text_dates (_ : pystr) : option Z := None.

Definition L1 : key := Some (lit "L1").
Definition C1 : key := Some (lit "C1").

Definition lead_L1 : Lead := mkLead L1 C1 (DStamp 0) None.

Definition campaign_a : Campaign := mkCampaign C1 (Some (lit "spring")).
Definition campaign_b : Campaign := mkCampaign C1 (Some (lit "autumn")).

(** An inscription of [L1] whose date is missing. *)
Definition undated : Inscription := mkInscription L1 DNull None.

(** An inscription of [L1] one hour before the lead. *)
Definition hour_before : Inscription :=
  mkInscription L1 (DStamp (0 - NS_PER_HOUR)) (Some (lit "€1.234,56")).

(** An inscription of [L1] three days after the lead. *)
Definition three_days : Inscription :=
  mkInscription L1 (DStamp (3 * NS_PER_DAY)) (Some (lit "0,00")).

End Samples.
Import Samples.

Module FrameSamples.

(** A frame with a datetime column holding NaT and a float column holding
    NaN, in a store where it is the only object. *)
Definition sample_frame : DataFrame :=
  mkFrame 2
    (<["inscription_created_at" := mkSeries Datetime64 [CTimestamp 0; CNaT]]>
      (<["amount_float" := mkSeries Float64 [CFloat FNaN; CFloat (FNum 1)]]>
        (<["converted" := mkSeries BoolT [CBool true; CBool false]]> ∅))).

Definition sample_heap : heap := <[1%positive := sample_frame]> ∅.


Definition sample_world : world :=
  mkWorld (<["MONGO_URI" := "mongodb://host"]> ∅)
    (<["MONGO_DB" := "marketing"]> (<["MONGO_COLLECTION" := "leads"]> ∅))
    (<[("mongodb://host", "marketing", "leads") := to_dict_records sample_frame]> ∅)
    [].

End FrameSamples.
Import FrameSamples.

(** ** Further definitions used by the properties *)

(** A character that the steps before the number parser leave alone: ASCII,
    not white space, not an underscore. *)
Definition plain (c : N) : Prop :=
  (c <? 127)%N = true /\ isspace c = false /\ c_isspace c = false
  /\ (c =? UNDERSCORE)%N = false.

(** The characters of a number text: digits, signs, the point and the
    exponent letter. *)
Definition numchar (c : N) : bool :=
  (is_digit c || (c =? 43) || (c =? 45) || (c =? 46) || (c =? 101) || (c =? 69))%N.

(** The letters of "inf", "infinity" and "nan", in either case. *)
Definition inf_nan_letter (c : N) : bool :=
  let l := tolower c in
  ((l =? 105) || (l =? 110) || (l =? 102) || (l =? 116) || (l =? 121)
   || (l =? 97))%N.

(** The characters a currency text can hold without [parse_currency]
    raising for that reason alone: white space, decimal digits of any
    script, the symbols the normalisation drops or translates, the
    underscore, and the characters of a number or of inf and nan. *)
Definition currency_char (c : N) : bool :=
  isspace c
  || match todecimal c with Some _ => true | None => false end
  || (c =? EURO)%N || (c =? NBSP)%N || (c =? COMMA)%N || (c =? UNDERSCORE)%N
  || numchar c || inf_nan_letter c.

(** The script at the end of [prepare_dataset.py]: enrich, sanitize, upload,
    report.  The three frames that [load_data] reads are its arguments.
    [frame_of] is the frame pandas holds for the enriched table, of which the
    script only uses what [sanitize_dataframe] and [to_dict] do with it;
    [h0] is the store of objects when the enrichment has returned.  An
    exception ends the script at the call that raises. *)
Inductive script_message := EtlCompleted.

Definition etl_script (frame_of : list EnrichedRecord -> DataFrame)
    (none_casts : bool) (parse_date : pystr -> option Z)
    (campaigns : list Campaign) (leads : list Lead)
    (inscriptions : list Inscription) (h0 : heap) (w : world)
    : result unit * world * list script_message :=
  match prepare_dataset parse_date campaigns leads inscriptions with
  | Raise e => (Raise e, w, [])
  | Ok rows =>
      let '(merged_df, h) := alloc (frame_of rows) h0 in
      let '(merged_df, h) := sanitize_dataframe none_casts merged_df h in
      match upload_dataframe_to_mongo (h !!! merged_df) true w with
      | (Raise e, w) => (Raise e, w, [])
      | (Ok _, w) => (Ok tt, w, [EtlCompleted])
      end
  end.

(** Sample frames: one without nulls, and a frame of the two flag columns of
    an enriched table. *)
Definition clean_frame : DataFrame :=
  mkFrame 1
    (<["converted" := mkSeries BoolT [CBool true]]>
      (<["cost_float" := mkSeries Float64 [CFloat (FNum 1)]]> ∅)).

Definition flags_frame (rows : list EnrichedRecord) : DataFrame :=
  mkFrame (length rows)
    (<["converted" := mkSeries BoolT ((fun r => CBool (converted r)) <$> rows)]>
      (<["conversion_valid" :=
           mkSeries BoolT ((fun r => CBool (conversion_valid r)) <$> rows)]> ∅)).

(** * Properties *)

(** ** Generic facts *)

Lemma mapM_Ok {A B : Type} (f : A -> result B) (l : list A) (out : list B) :
  mapM f l = Ok out <-> Forall2 (fun x y => f x = Ok y) l out.
Proof.
  revert out. induction l as [|x l IH]; intros out; cbn [mapM].
  - split.
    + intros [= <-]. constructor.
    + intros H. inversion H. reflexivity.
  - destruct (f x) as [y|e] eqn:Ex; cbn.
    + destruct (mapM f l) as [k|e] eqn:El; cbn.
      * split.
        -- intros [= <-]. constructor; [done|]. by apply IH.
        -- intros H. inversion H as [|? y' ? k' Hy Hk]; subst.
           rewrite Ex in Hy. injection Hy as <-.
           apply IH in Hk. by injection Hk as <-.
      * split; [done|].
        intros H. inversion H as [|? y' ? k' Hy Hk]; subst.
        apply IH in Hk. done.
    + split; [done|].
      intros H. inversion H as [|? y' ? k' Hy Hk]; subst. congruence.
Qed.


Lemma filter_none {A : Type} (P : A -> Prop) `{forall x, Decision (P x)}
    (l : list A) :
  (forall x, x ∈ l -> ~ P x) -> filter P l = [].
Proof.
  induction l as [|a l IH]; intros Hl; [reflexivity|].
  rewrite filter_cons. destruct (decide (P a)) as [Ha|_].
  - exfalso. apply (Hl a); [apply list_elem_of_here|exact Ha].
  - apply IH. intros x Hx. apply Hl. by apply list_elem_of_further.
Qed.

(** ** The left merge *)

Section Merge.
Context {L R : Type} (left_on : L -> key) (right_on : R -> key).

Lemma merge_left_block (left : list L) (right : list R) :
  merge_left left_on right_on left right
  = flat_map (block left_on right_on right) left.
Proof. reflexivity. Qed.

Lemma merge_left_app (l1 l2 : list L) (right : list R) :
  merge_left left_on right_on (l1 ++ l2) right
  = merge_left left_on right_on l1 right ++ merge_left left_on right_on l2 right.
Proof. unfold merge_left. apply flat_map_app. Qed.

Lemma block_length (right : list R) (l : L) :
  length (block left_on right_on right l)
  = Nat.max 1 (length (matching right_on (left_on l) right)).
Proof.
  unfold block. destruct (matching _ _ _) as [|r ms]; [reflexivity|].
  rewrite length_fmap. cbn. lia.
Qed.

Lemma block_left (right : list R) (l : L) (x : L * option R) :
  x ∈ block left_on right_on right l -> x.1 = l.
Proof.
  unfold block. destruct (matching _ _ _) as [|r ms].
  - intros ->%list_elem_of_singleton. reflexivity.
  - intros (r' & -> & _)%list_elem_of_fmap. reflexivity.
Qed.

Lemma block_nonempty (right : list R) (l : L) :
  exists o, (l, o) ∈ block left_on right_on right l.
Proof.
  unfold block. destruct (matching _ _ _) as [|r ms].
  - exists None. apply list_elem_of_here.
  - exists (Some r). cbn. apply list_elem_of_here.
Qed.

Lemma merge_left_length (left : list L) (right : list R) :
  length (merge_left left_on right_on left right)
  = sum_list ((fun l => Nat.max 1 (length (matching right_on (left_on l) right)))
                <$> left).
Proof.
  rewrite merge_left_block.
  induction left as [|l left IH]; [reflexivity|].
  cbn [flat_map fmap list_fmap sum_list sum_list_with].
  rewrite length_app, block_length, IH. reflexivity.
Qed.

(** A left row is never dropped. *)
Lemma merge_left_keeps (left : list L) (right : list R) (l : L) :
  l ∈ left -> exists o, (l, o) ∈ merge_left left_on right_on left right.
Proof.
  rewrite merge_left_block.
  induction 1 as [l left|l l' left Hin [o IH]]; cbn [flat_map].
  - destruct (block_nonempty right l) as [o Ho].
    exists o. apply elem_of_app. by left.
  - exists o. apply elem_of_app. by right.
Qed.

Lemma merge_left_elem (left : list L) (right : list R) (x : L * option R) :
  x ∈ merge_left left_on right_on left right ->
  x.1 ∈ left /\
  match x.2 with
  | Some r => r ∈ right /\ right_on r = left_on x.1
  | None => matching right_on (left_on x.1) right = []
  end.
Proof.
  rewrite merge_left_block.
  induction left as [|l left IH]; cbn [flat_map].
  - intros H. by apply not_elem_of_nil in H.
  - intros [H|H]%elem_of_app.
    + split; [rewrite (block_left _ _ _ H); apply list_elem_of_here|].
      revert H. unfold block.
      destruct (matching right_on (left_on l) right) as [|r ms] eqn:Em.
      * intros ->%list_elem_of_singleton. exact Em.
      * intros (r' & -> & Hr')%list_elem_of_fmap. cbn.
        rewrite <- Em in Hr'. unfold matching in Hr'.
        apply list_elem_of_filter in Hr'. tauto.
    + destruct (IH H) as [H1 H2]. split; [by apply list_elem_of_further|done].
Qed.

(** With pairwise distinct keys on the right, a key matches at most one row. *)
Lemma matching_unique (right : list R) (k : key) :
  NoDup (right_on <$> right) -> (length (matching right_on k right) <= 1)%nat.
Proof.
  unfold matching.
  induction right as [|r right IH]; cbn [fmap list_fmap]; [cbn; lia|].
  intros [Hr Hnd]%NoDup_cons. rewrite filter_cons.
  destruct (decide (right_on r = k)) as [<-|]; [|by apply IH].
  replace (filter (fun r0 => right_on r0 = right_on r) right) with (@nil R);
    [cbn; lia|].
  symmetry. apply filter_none. intros r' Hr' Heq.
  apply Hr. rewrite <- Heq. by apply list_elem_of_fmap_2.
Qed.

Lemma merge_left_length_unique (left : list L) (right : list R) :
  NoDup (right_on <$> right) ->
  length (merge_left left_on right_on left right) = length left.
Proof.
  intros Hnd. rewrite merge_left_length.
  induction left as [|l left IH]; [reflexivity|].
  cbn [fmap list_fmap sum_list sum_list_with length]. rewrite IH.
  pose proof (matching_unique right (left_on l) Hnd). unfold id. lia.
Qed.

(** The rows merged from left rows that all carry the key [k]. *)
Lemma merge_left_same_key (left : list L) (right : list R) (k : key) :
  Forall (fun l => left_on l = k) left ->
  length (merge_left left_on right_on left right)
  = (length left * Nat.max 1 (length (matching right_on k right)))%nat.
Proof.
  intros H. rewrite merge_left_length.
  induction H as [|l left Hl _ IH]; [reflexivity|].
  cbn [fmap list_fmap sum_list sum_list_with length]. rewrite IH, Hl.
  unfold id. lia.
Qed.
End Merge.

(** ** The enrichment, row by row *)

Lemma joined_length (campaigns : list Campaign) (leads : list Lead)
    (inscriptions : list Inscription) :
  length (joined campaigns leads inscriptions)
  = sum_list (multiplicity campaigns inscriptions <$> leads).
Proof.
  unfold joined. induction leads as [|ld leads IH]; [reflexivity|].
  rewrite (merge_left_block input_channel campaign_id). cbn [flat_map].
  rewrite <- (merge_left_block input_channel campaign_id).
  rewrite merge_left_app, length_app, IH.
  cbn [fmap list_fmap sum_list sum_list_with]. unfold id. f_equal.
  rewrite (merge_left_same_key _ _ _ _ (lead_id ld)).
  - rewrite block_length. reflexivity.
  - apply Forall_forall. intros x Hx.
    by rewrite (block_left _ _ _ _ _ Hx).
Qed.

Lemma joined_length_unique (campaigns : list Campaign) (leads : list Lead)
    (inscriptions : list Inscription) :
  NoDup (campaign_id <$> campaigns) ->
  NoDup (insc_lead_id <$> inscriptions) ->
  length (joined campaigns leads inscriptions) = length leads.
Proof.
  intros Hc Hi. unfold joined.
  rewrite merge_left_length_unique by exact Hi.
  by apply merge_left_length_unique.
Qed.

(** Every lead is in the merged frame. *)
Lemma joined_keeps (campaigns : list Campaign) (leads : list Lead)
    (inscriptions : list Inscription) (ld : Lead) :
  ld ∈ leads -> exists j, j ∈ joined campaigns leads inscriptions /\ j_lead j = ld.
Proof.
  intros Hin.
  destruct (merge_left_keeps input_channel campaign_id leads campaigns ld Hin)
    as [oc Hoc].
  destruct (merge_left_keeps (fun lc : Lead * option Campaign => lead_id lc.1)
              insc_lead_id _ inscriptions (ld, oc) Hoc) as [oi Hoi].
  exists (ld, oc, oi). split; [exact Hoi|reflexivity].
Qed.

(** A row of the merged frame comes from a lead, and its inscription, when
    there is one, carries the lead's id. *)
Lemma joined_elem (campaigns : list Campaign) (leads : list Lead)
    (inscriptions : list Inscription) (j : Joined) :
  j ∈ joined campaigns leads inscriptions ->
  j_lead j ∈ leads /\
  match j_inscription j with
  | Some ins => ins ∈ inscriptions /\ insc_lead_id ins = lead_id (j_lead j)
  | None => matching insc_lead_id (lead_id (j_lead j)) inscriptions = []
  end.
Proof.
  intros Hj. unfold joined in Hj.
  apply merge_left_elem in Hj as [H1 H2].
  apply merge_left_elem in H1 as [H1 _]. split; [exact H1|exact H2].
Qed.

(** With pairwise distinct keys on the right, the left rows come out once
    each, in order. *)
Lemma merge_left_fst_unique {L R : Type} (left_on : L -> key)
    (right_on : R -> key) (left : list L) (right : list R) :
  NoDup (right_on <$> right) ->
  fst <$> merge_left left_on right_on left right = left.
Proof.
  intros Hnd. rewrite merge_left_block.
  induction left as [|l left IH]; [reflexivity|].
  cbn [flat_map]. rewrite fmap_app, IH. unfold block.
  pose proof (matching_unique right_on right (left_on l) Hnd) as Hm.
  destruct (matching right_on (left_on l) right) as [|r [|r' ms]];
    [reflexivity|reflexivity|cbn in Hm; lia].
Qed.

Lemma joined_leads_unique (campaigns : list Campaign) (leads : list Lead)
    (inscriptions : list Inscription) :
  NoDup (campaign_id <$> campaigns) ->
  NoDup (insc_lead_id <$> inscriptions) ->
  j_lead <$> joined campaigns leads inscriptions = leads.
Proof.
  intros Hc Hi. unfold joined.
  change j_lead with (fst ∘ @fst (Lead * option Campaign) (option Inscription)).
  rewrite list_fmap_compose.
  rewrite merge_left_fst_unique by exact Hi.
  by apply merge_left_fst_unique.
Qed.

Section EnrichFacts.
Variable parse_date : pystr -> option Z.

(** The column program and the row program compute the same frame. *)
Lemma enrich_rowwise (df : list Joined) :
  enrich parse_date df = mapM (enrich_row parse_date) df.
Proof.
  induction df as [|j df IH]; [reflexivity|].
  cbn [mapM]. rewrite <- IH. clear IH.
  unfold enrich, to_datetime, enrich_row. cbn [fmap list_fmap mapM].
  destruct (to_datetime_scalar parse_date (col_created_at j)) as [a|[]];
  destruct (to_datetime_scalar parse_date (col_created_at_insc j)) as [b|[]];
  destruct (parse_currency (col_cost j)) as [c|[]];
  destruct (parse_currency (col_amount j)) as [d|[]];
  repeat match goal with
    | |- context [mapM ?f ?l] => destruct (mapM f l) as [?|[]]
    end;
  reflexivity.
Qed.

Lemma prepare_dataset_rowwise (campaigns : list Campaign) (leads : list Lead)
    (inscriptions : list Inscription) :
  prepare_dataset parse_date campaigns leads inscriptions
  = mapM (enrich_row parse_date) (joined campaigns leads inscriptions).
Proof. unfold prepare_dataset. apply enrich_rowwise. Qed.

Lemma enrich_row_Ok (j : Joined) (r : EnrichedRecord) :
  enrich_row parse_date j = Ok r ->
  exists lc ic cf af,
    to_datetime_scalar parse_date (col_created_at j) = Ok lc /\
    to_datetime_scalar parse_date (col_created_at_insc j) = Ok ic /\
    parse_currency (col_cost j) = Ok cf /\
    parse_currency (col_amount j) = Ok af /\
    r = derive j lc ic cf af.
Proof.
  unfold enrich_row.
  destruct (to_datetime_scalar parse_date (col_created_at j)) as [a|]; [|done].
  destruct (to_datetime_scalar parse_date (col_created_at_insc j)) as [b|]; [|done].
  destruct (parse_currency (col_cost j)) as [c|]; [|done].
  destruct (parse_currency (col_amount j)) as [d|]; [|done].
  cbn. intros [= <-]. by exists a, b, c, d.
Qed.

(** Every record of the output is derived from a row of the merged frame. *)
Lemma prepare_dataset_row (campaigns : list Campaign) (leads : list Lead)
    (inscriptions : list Inscription) (out : list EnrichedRecord)
    (r : EnrichedRecord) :
  prepare_dataset parse_date campaigns leads inscriptions = Ok out ->
  r ∈ out ->
  exists j, j ∈ joined campaigns leads inscriptions /\
            enrich_row parse_date j = Ok r.
Proof.
  rewrite prepare_dataset_rowwise. intros H%mapM_Ok Hr.
  apply list_elem_of_lookup in Hr as [i Hi].
  destruct (Forall2_lookup_r _ _ _ _ _ H Hi) as (j & Hj & Hjr).
  exists j. split; [|exact Hjr]. apply list_elem_of_lookup. by exists i.
Qed.

Lemma prepare_dataset_sources (campaigns : list Campaign) (leads : list Lead)
    (inscriptions : list Inscription) (out : list EnrichedRecord) :
  prepare_dataset parse_date campaigns leads inscriptions = Ok out ->
  source <$> out = joined campaigns leads inscriptions.
Proof.
  rewrite prepare_dataset_rowwise. intros H%mapM_Ok.
  induction H as [|j r df out Hjr _ IH]; [reflexivity|].
  cbn [fmap list_fmap]. rewrite IH. f_equal.
  apply enrich_row_Ok in Hjr as (lc & ic & cf & af & _ & _ & _ & _ & ->).
  reflexivity.
Qed.

Lemma prepare_dataset_length (campaigns : list Campaign) (leads : list Lead)
    (inscriptions : list Inscription) (out : list EnrichedRecord) :
  prepare_dataset parse_date campaigns leads inscriptions = Ok out ->
  length out = length (joined campaigns leads inscriptions).
Proof.
  intros H. rewrite <- (prepare_dataset_sources _ _ _ _ H).
  by rewrite length_fmap.
Qed.

End EnrichFacts.

(** ** The anomaly classifier and the flags *)

(** On a row marked converted whose inscription date is NaT, the classifier
    answers with its first rule. *)
Lemma detect_anomaly_first_rule (days : option Z) :
  detect_anomaly true None days = MISSING_INSCRIPTION_DATE.
Proof. reflexivity. Qed.

(** [prepare_dataset] never hands such a row to the classifier: [converted]
    is computed from the presence of the date, so the first rule cannot fire. *)
Lemma missing_date_never_reported (parse_date : pystr -> option Z)
    (campaigns : list Campaign) (leads : list Lead)
    (inscriptions : list Inscription) (out : list EnrichedRecord)
    (r : EnrichedRecord) :
  prepare_dataset parse_date campaigns leads inscriptions = Ok out ->
  r ∈ out ->
  conversion_anomaly_type r <> MISSING_INSCRIPTION_DATE.
Proof.
  intros H Hr.
  destruct (prepare_dataset_row _ _ _ _ _ _ H Hr) as (j & _ & Hj).
  apply enrich_row_Ok in Hj as (lc & ic & cf & af & _ & _ & _ & _ & ->).
  cbn. unfold detect_anomaly.
  destruct ic as [t|]; cbn; [|done].
  destruct (lt_zero _); done.
Qed.

(** C1 (what the code does where the claim applies).  A lead whose matched
    inscription row has no date comes out as not converted and with
    NO_ANOMALY, not with MISSING_INSCRIPTION_DATE: at the sample input, and
    for every record of every output whose merged row holds an inscription
    and whose inscription date is NaT. *)
Theorem matched_row_without_date_is_no_anomaly :
  prepare_dataset no_text_dates [] [lead_L1] [undated]
  = Ok [mkEnriched (lead_L1, None, Some undated) (Some 0) None FNaN FNaN
          None false false NO_ANOMALY]
  /\
  forall (parse_date : pystr -> option Z) (campaigns : list Campaign)
         (leads : list Lead) (inscriptions : list Inscription)
         (out : list EnrichedRecord) (r : EnrichedRecord) (ins : Inscription),
    prepare_dataset parse_date campaigns leads inscriptions = Ok out ->
    r ∈ out ->
    j_inscription (source r) = Some ins ->
    inscription_created_at r = None ->
    converted r = false /\ conversion_anomaly_type r = NO_ANOMALY.
Proof.
  split; [reflexivity|].
  intros parse_date campaigns leads inscriptions out r ins H Hr _.
  destruct (prepare_dataset_row _ _ _ _ _ _ H Hr) as (j & _ & Hj).
  apply enrich_row_Ok in Hj as (lc & ic & cf & af & _ & _ & _ & _ & ->).
  cbn. intros ->. split; reflexivity.
Qed.

(** C4.  In every record of the output, [conversion_valid] implies
    [converted]; it is the conjunction of [converted] and
    [conversion_time_days >= 0]; and a record with a null
    [conversion_time_days], in particular one of a lead without inscription,
    has [conversion_valid] false. *)
Theorem conversion_valid_implies_converted (parse_date : pystr -> option Z)
    (campaigns : list Campaign) (leads : list Lead)
    (inscriptions : list Inscription) (out : list EnrichedRecord)
    (r : EnrichedRecord) :
  prepare_dataset parse_date campaigns leads inscriptions = Ok out ->
  r ∈ out ->
  (conversion_valid r = true -> converted r = true) /\
  conversion_valid r = converted r && ge_zero (conversion_time_days r) /\
  (conversion_time_days r = None -> conversion_valid r = false) /\
  (j_inscription (source r) = None ->
   conversion_time_days r = None /\ conversion_valid r = false).
Proof.
  intros H Hr.
  destruct (prepare_dataset_row _ _ _ _ _ _ H Hr) as (j & _ & Hj).
  apply enrich_row_Ok in Hj as (lc & ic & cf & af & _ & Hic & _ & _ & ->).
  cbn. repeat split.
  - destruct ic, lc; cbn; done.
  - destruct ic, lc; cbn; done.
  - intros ->. reflexivity.
  - unfold col_created_at_insc in Hic. destruct (j_inscription j); [done|].
    cbn in Hic. by injection Hic as <-.
  - unfold col_created_at_insc in Hic. destruct (j_inscription j); [done|].
    cbn in Hic. by injection Hic as <-.
Qed.

Lemma conversion_valid_implies_converted_witness :
  exists out r,
    prepare_dataset no_text_dates [campaign_a] [lead_L1] [three_days] = Ok out /\
    r ∈ out /\
    conversion_valid r = true /\
    converted r = true.
Proof.
  eexists. eexists. split; [reflexivity|]. split; [apply list_elem_of_here|].
  split; [reflexivity|].
  eapply (conversion_valid_implies_converted no_text_dates [campaign_a]
            [lead_L1] [three_days]);
    [reflexivity|apply list_elem_of_here|reflexivity].
Defined.

(** C7.  A record whose inscription is one hour before its lead has
    [conversion_time_days] -1 (the day count is rounded down, not toward
    zero), is not a valid conversion and is classified
    NEGATIVE_CONVERSION_TIME. *)
Theorem hour_early_is_minus_one_day (parse_date : pystr -> option Z)
    (campaigns : list Campaign) (leads : list Lead)
    (inscriptions : list Inscription) (out : list EnrichedRecord)
    (r : EnrichedRecord) (T : Z) :
  prepare_dataset parse_date campaigns leads inscriptions = Ok out ->
  r ∈ out ->
  lead_created_at r = Some T ->
  inscription_created_at r = Some (T - NS_PER_HOUR) ->
  conversion_time_days r = Some (-1) /\
  conversion_valid r = false /\
  conversion_anomaly_type r = NEGATIVE_CONVERSION_TIME.
Proof.
  intros H Hr.
  destruct (prepare_dataset_row _ _ _ _ _ _ H Hr) as (j & _ & Hj).
  apply enrich_row_Ok in Hj as (lc & ic & cf & af & _ & _ & _ & _ & ->).
  cbn. intros -> ->. cbn.
  replace (T - NS_PER_HOUR - T) with (- NS_PER_HOUR) by lia.
  repeat split.
Qed.

Lemma hour_early_is_minus_one_day_witness :
  exists out r,
    prepare_dataset no_text_dates [campaign_a] [lead_L1] [hour_before] = Ok out /\
    r ∈ out /\
    conversion_time_days r = Some (-1) /\
    conversion_valid r = false /\
    conversion_anomaly_type r = NEGATIVE_CONVERSION_TIME.
Proof.
  eexists. eexists. split; [reflexivity|]. split; [apply list_elem_of_here|].
  eapply (hour_early_is_minus_one_day no_text_dates [campaign_a] [lead_L1]
            [hour_before] _ _ 0);
    [reflexivity|apply list_elem_of_here|reflexivity|reflexivity].
Defined.

(** ** The currency parser *)

Lemma replace_single (c : N) (new s : pystr) :
  replace [c] new s = flat_map (fun x => if (c =? x)%N then new else [x]) s.
Proof.
  unfold replace.
  induction s as [|x s IH]; [reflexivity|].
  cbn [replace_from starts_with flat_map length Nat.sub].
  rewrite andb_true_r. destruct (c =? x)%N; cbn [app]; by rewrite IH.
Qed.

Lemma flat_map_compose {A B C : Type} (f : A -> list B) (g : B -> list C)
    (l : list A) :
  flat_map g (flat_map f l) = flat_map (fun x => flat_map g (f x)) l.
Proof.
  induction l as [|x l IH]; [reflexivity|].
  cbn [flat_map]. by rewrite flat_map_app, IH.
Qed.

(** The four [replace] calls amount to one pass over the characters. *)
Lemma normalise_spec (s : pystr) : normalise s = spec_normalise s.
Proof.
  unfold normalise, spec_normalise. f_equal.
  rewrite !replace_single, !flat_map_compose.
  apply flat_map_ext. intros c. unfold spec_translate, EURO, NBSP, DOT, COMMA.
  rewrite !(N.eqb_sym c).
  destruct (8364 =? c)%N; cbn [flat_map app orb]; [reflexivity|].
  destruct (160 =? c)%N; cbn [flat_map app orb]; [reflexivity|].
  destruct (46 =? c)%N; cbn [flat_map app orb]; [reflexivity|].
  destruct (44 =? c)%N; reflexivity.
Qed.

(** C5.  [parse_currency("€1.234,56") == 1234.56], a null input gives the
    null (NaN) output, [parse_currency("0,00") == 0.0], which is not null; and
    the text handed to [float] is the input without euro signs,
    non-breaking spaces and points, with every comma turned into a point,
    trimmed. *)
Theorem parse_currency_examples :
  (exists x, parse_currency (Some (lit "€1.234,56")) = Ok x
             /\ float_eq x (FNum 1234.56%Q) = true) /\
  (exists x, parse_currency None = Ok x /\ isnan x = true) /\
  (exists x, parse_currency (Some (lit "0,00")) = Ok x
             /\ float_eq x (FNum 0.0%Q) = true /\ isnan x = false) /\
  (forall s, normalise s = spec_normalise s).
Proof.
  split; [|split; [|split]].
  - eexists. split; reflexivity.
  - eexists. split; reflexivity.
  - eexists. repeat split; reflexivity.
  - exact normalise_spec.
Qed.




(** ** One record per lead *)

(** C2 as stated fails: two campaigns share the id C1, and the enrichment
    returns (two records for the one lead) instead of failing. *)
Lemma duplicate_campaign_id_returns :
  ~ (~ NoDup (campaign_id <$> [campaign_a; campaign_b]) ->
     fails_with (prepare_dataset no_text_dates [campaign_a; campaign_b]
                   [lead_L1] []) IntegrityError).
Proof.
  intros H. destruct H as (e & He & _).
  - intros [Hn _]%NoDup_cons. apply Hn. apply list_elem_of_here.
  - vm_compute in He. discriminate.
Qed.

(** C2, amended.  Duplicate keys do not stop the enrichment (it returns on
    the input above).  Whenever it returns, its records are, in order, the
    rows of the two left merges: each lead once per pair of a campaign and
    an inscription that match it, a missing match counting as one; so the
    output has the sum over the leads of these products as its length. *)
Theorem duplicate_keys_multiply_rows (parse_date : pystr -> option Z)
    (campaigns : list Campaign) (leads : list Lead)
    (inscriptions : list Inscription) (out : list EnrichedRecord) :
  prepare_dataset parse_date campaigns leads inscriptions = Ok out ->
  source <$> out = joined campaigns leads inscriptions /\
  length out = sum_list (multiplicity campaigns inscriptions <$> leads).
Proof.
  intros E. split.
  - by apply (prepare_dataset_sources parse_date).
  - rewrite (prepare_dataset_length parse_date _ _ _ _ E).
    apply joined_length.
Qed.

Lemma duplicate_keys_multiply_rows_witness :
  exists out,
    prepare_dataset no_text_dates [campaign_a; campaign_b] [lead_L1] [] = Ok out
    /\ source <$> out = [(lead_L1, Some campaign_a, None);
                         (lead_L1, Some campaign_b, None)]
    /\ length out = 2%nat.
Proof.
  eexists. split; [reflexivity|].
  apply (duplicate_keys_multiply_rows no_text_dates [campaign_a; campaign_b]
           [lead_L1] []).
  reflexivity.
Defined.

(** C3 as stated fails: with two inscriptions for the one lead, the output
    has two records. *)
Lemma duplicate_inscriptions_two_records :
  ~ (exists out,
       prepare_dataset no_text_dates [campaign_a] [lead_L1]
         [three_days; hour_before] = Ok out
       /\ length out = length [lead_L1]).
Proof.
  intros (out & Hout & Hlen). vm_compute in Hout.
  injection Hout as <-. discriminate Hlen.
Qed.

(** C3, amended.  When no two campaigns share a [campaign_id] and no two
    inscriptions share a [lead_id], an output of the enrichment has exactly
    one record per lead, in the order of the leads, whether or not a lead
    matches a campaign or an inscription. *)
Theorem one_record_per_lead (parse_date : pystr -> option Z)
    (campaigns : list Campaign) (leads : list Lead)
    (inscriptions : list Inscription) (out : list EnrichedRecord) :
  NoDup (campaign_id <$> campaigns) ->
  NoDup (insc_lead_id <$> inscriptions) ->
  prepare_dataset parse_date campaigns leads inscriptions = Ok out ->
  length out = length leads /\ j_lead ∘ source <$> out = leads.
Proof.
  intros Hc Hi Hout. split.
  - rewrite (prepare_dataset_length parse_date _ _ _ _ Hout).
    by apply joined_length_unique.
  - rewrite list_fmap_compose, (prepare_dataset_sources parse_date _ _ _ _ Hout).
    by apply joined_leads_unique.
Qed.

Lemma one_record_per_lead_witness :
  exists out,
    prepare_dataset no_text_dates [campaign_a]
      [lead_L1; mkLead None None (DStamp 5) (Some (lit "0,00"))] [three_days]
    = Ok out
    /\ length out = 2%nat
    /\ j_lead ∘ source <$> out
       = [lead_L1; mkLead None None (DStamp 5) (Some (lit "0,00"))].
Proof.
  eexists. split; [reflexivity|].
  apply (one_record_per_lead no_text_dates [campaign_a]
           [lead_L1; mkLead None None (DStamp 5) (Some (lit "0,00"))]
           [three_days]).
  - apply NoDup_singleton.
  - apply NoDup_singleton.
  - reflexivity.
Defined.

(** ** [sanitize_dataframe] *)

Lemma fix_null_idem (c : cell) : fix_null (fix_null c) = fix_null c.
Proof. unfold fix_null. destruct (isnull c) eqn:E; [reflexivity|by rewrite E]. Qed.

Lemma isnull_fix_null (c : cell) : isnull (fix_null c) = isnull c.
Proof. unfold fix_null. destruct (isnull c) eqn:E; [reflexivity|exact E]. Qed.

Lemma where_notnull_values (vs : list cell) :
  zip_with (fun v (c : bool) => if c then v else CNone) vs
    ((fun c => negb (isnull c)) <$> vs)
  = fix_null <$> vs.
Proof.
  induction vs as [|v vs IH]; [reflexivity|].
  cbn [fmap list_fmap zip_with]. rewrite IH. f_equal.
  unfold fix_null. by destruct (isnull v).
Qed.

Lemma all_notnull_fix_null (vs : list cell) :
  forallb (fun c => negb (isnull c)) (fix_null <$> vs)
  = forallb (fun c => negb (isnull c)) vs.
Proof.
  induction vs as [|v vs IH]; [reflexivity|].
  cbn [fmap list_fmap forallb]. by rewrite IH, isnull_fix_null.
Qed.

Lemma datetime_to_object_eq (s : Series) :
  datetime_to_object s = mkSeries Object (fix_null <$> s_values s).
Proof.
  unfold datetime_to_object, series_where, astype_object, notnull.
  cbn [s_values s_dtype]. by rewrite where_notnull_values.
Qed.

Lemma fix_null_twice (vs : list cell) :
  fix_null <$> (fix_null <$> vs) = fix_null <$> vs.
Proof.
  rewrite <- list_fmap_compose. apply list_fmap_ext.
  intros _ c _. apply fix_null_idem.
Qed.

Section SanitizeValues.
Variable none_casts : bool.

Lemma column_where_idem (s : Series) :
  column_where_notnull_none none_casts
    (column_where_notnull_none none_casts s)
  = column_where_notnull_none none_casts s.
Proof.
  destruct (is_object s || none_casts) eqn:E.
  - assert (column_where_notnull_none none_casts s
            = mkSeries
                (if forallb (fun c => negb (isnull c)) (s_values s)
                 then s_dtype s else Object)
                (fix_null <$> s_values s)) as ->.
    { unfold column_where_notnull_none. by rewrite E. }
    unfold column_where_notnull_none, is_object. cbn [s_values s_dtype].
    rewrite all_notnull_fix_null, fix_null_twice.
    assert (match (if forallb (fun c => negb (isnull c)) (s_values s)
                   then s_dtype s else Object) with
            | Object => true
            | _ => false
            end || none_casts = true) as ->.
    { destruct none_casts; [apply orb_true_r|].
      rewrite orb_false_r in E. unfold is_object in E.
      destruct (s_dtype s), (forallb _ _); done. }
    f_equal. by destruct (forallb _ _).
  - assert (column_where_notnull_none none_casts s = s) as ->.
    { unfold column_where_notnull_none. by rewrite E. }
    unfold column_where_notnull_none. by rewrite E.
Qed.

Lemma column_where_not_datetime (s : Series) :
  is_datetime s = false ->
  is_datetime (column_where_notnull_none none_casts s) = false.
Proof.
  intros H. unfold column_where_notnull_none.
  destruct (is_object s || none_casts); [|exact H].
  unfold is_datetime in *. cbn [s_dtype].
  destruct (forallb _ _); [exact H|reflexivity].
Qed.

(** A datetime column comes out as an object column with [None] for NaT. *)
Lemma sanitize_series_datetime (s : Series) :
  is_datetime s = true ->
  sanitize_series none_casts s = mkSeries Object (fix_null <$> s_values s).
Proof.
  intros H. unfold sanitize_series. rewrite H, datetime_to_object_eq.
  unfold column_where_notnull_none, is_object. cbn [s_values s_dtype orb].
  rewrite fix_null_twice. f_equal. by destruct (forallb _ _).
Qed.

Lemma sanitize_series_idem (s : Series) :
  sanitize_series none_casts (sanitize_series none_casts s)
  = sanitize_series none_casts s.
Proof.
  destruct (is_datetime s) eqn:E.
  - rewrite (sanitize_series_datetime s E).
    unfold sanitize_series, is_datetime, column_where_notnull_none, is_object.
    cbn [s_values s_dtype orb]. rewrite fix_null_twice.
    f_equal. by destruct (forallb _ _).
  - assert (sanitize_series none_casts s
            = column_where_notnull_none none_casts s) as ->.
    { unfold sanitize_series. by rewrite E. }
    unfold sanitize_series. rewrite (column_where_not_datetime s E).
    apply column_where_idem.
Qed.

Lemma sanitize_frame_idem (f : DataFrame) :
  sanitize_frame none_casts (sanitize_frame none_casts f)
  = sanitize_frame none_casts f.
Proof.
  unfold sanitize_frame. cbn [n_rows columns]. f_equal.
  rewrite <- map_fmap_compose. apply map_fmap_ext.
  intros _ s _. apply sanitize_series_idem.
Qed.

End SanitizeValues.

Lemma loop_columns_lookup (cols : list string) (m : gmap string Series)
    (k : string) :
  NoDup cols ->
  Forall (fun c => is_Some (m !! c)) cols ->
  loop_columns cols m !! k
  = if decide (k ∈ cols) then datetime_to_object <$> m !! k else m !! k.
Proof.
  unfold loop_columns. revert m.
  induction cols as [|c cols IH]; intros m Hnd Hin; cbn [foldl].
  - by rewrite decide_False by apply not_elem_of_nil.
  - apply NoDup_cons in Hnd as [Hc Hnd].
    apply Forall_cons in Hin as [[s Hs] Hin].
    rewrite IH; [|exact Hnd|].
    + rewrite (lookup_total_correct _ _ _ Hs).
      destruct (decide (k ∈ cols)) as [Hk|Hk].
      * rewrite decide_True by (by apply list_elem_of_further).
        rewrite lookup_insert_ne; [reflexivity|]. by intros ->.
      * destruct (decide (k = c)) as [->|Hne].
        -- rewrite decide_True by apply list_elem_of_here.
           by rewrite lookup_insert_eq, Hs.
        -- rewrite decide_False.
           ++ by rewrite lookup_insert_ne.
           ++ intros [?|?]%elem_of_cons; done.
    + eapply Forall_impl; [exact Hin|]. intros c' [s' Hs'].
      destruct (decide (c = c')) as [->|Hne].
      * rewrite lookup_insert_eq. by eexists.
      * rewrite lookup_insert_ne by done. by eexists.
Qed.

(** The loop over the datetime columns turns exactly those columns into
    object columns. *)
Lemma loop_columns_datetime (m : gmap string Series) :
  loop_columns (map_to_list (filter (fun kv => is_datetime kv.2 = true) m)).*1 m
  = (fun s => if is_datetime s then datetime_to_object s else s) <$> m.
Proof.
  apply map_eq. intros k.
  rewrite loop_columns_lookup.
  - rewrite lookup_fmap. destruct (m !! k) as [s|] eqn:Hk; cbn.
    + destruct (is_datetime s) eqn:Es.
      * rewrite decide_True; [reflexivity|].
        apply list_elem_of_fmap. exists (k, s). split; [reflexivity|].
        apply elem_of_map_to_list. by apply map_lookup_filter_Some.
      * rewrite decide_False; [reflexivity|].
        intros ([k' s'] & -> & Hin)%list_elem_of_fmap.
        apply elem_of_map_to_list, map_lookup_filter_Some in Hin as [Hl Hp].
        cbn in *. congruence.
    + by destruct (decide _).
  - apply NoDup_fst_map_to_list.
  - apply Forall_forall. intros c ([k' s'] & -> & Hin)%list_elem_of_fmap.
    apply elem_of_map_to_list, map_lookup_filter_Some in Hin as [Hl _].
    by eexists.
Qed.

Lemma for_each_setitem (l : loc) (cols : list string) (n : nat)
    (m : gmap string Series) (h : heap) :
  h !! l = Some (mkFrame n m) ->
  for_each cols (fun col =>
      s ← getitem l col;
      setitem l col (series_where (astype_object s) (notnull s) CNone)) h
  = (tt, <[l := mkFrame n (loop_columns cols m)]> h).
Proof.
  revert m h. induction cols as [|c cols IH]; intros m h Hl.
  - cbn. by rewrite insert_id.
  - cbn [for_each]. unfold mbind at 1, St_bind at 1.
    unfold getitem at 1, setitem at 1, deref, mbind, St_bind, mret, St_ret.
    rewrite (lookup_total_correct _ _ _ Hl). cbn [columns n_rows].
    rewrite (IH (<[c := datetime_to_object (m !!! c)]> m)).
    + f_equal. apply map_eq. intros l'.
      destruct (decide (l = l')) as [<-|Hne].
      * by rewrite !lookup_insert_eq.
      * rewrite !lookup_insert_ne by done. by rewrite lookup_alter_ne.
    + by rewrite lookup_alter_eq, Hl.
Qed.

Lemma St_bind_run {A B : Type} (m : St A) (k : A -> St B) (h h' : heap) (a : A) :
  m h = (a, h') -> (m ≫= k) h = k a h'.
Proof. unfold mbind, St_bind. by intros ->. Qed.

Lemma copy_run (h : heap) (df : loc) (f : DataFrame) :
  h !! df = Some f ->
  copy df h = (fresh (dom h), <[fresh (dom h) := f]> h).
Proof.
  intros Hdf. unfold copy. erewrite St_bind_run; [reflexivity|].
  unfold deref. by rewrite (lookup_total_correct _ _ _ Hdf).
Qed.

Lemma select_datetime_columns_run (h : heap) (df : loc) (f : DataFrame) :
  h !! df = Some f ->
  select_datetime_columns df h
  = ((map_to_list (filter (fun kv => is_datetime kv.2 = true) (columns f))).*1, h).
Proof.
  intros Hdf. unfold select_datetime_columns. erewrite St_bind_run; [reflexivity|].
  unfold deref. by rewrite (lookup_total_correct _ _ _ Hdf).
Qed.

Lemma where_notnull_none_run (none_casts : bool) (h : heap) (df : loc)
    (f : DataFrame) :
  h !! df = Some f ->
  where_notnull_none none_casts df h
  = (fresh (dom h),
     <[fresh (dom h) := mkFrame (n_rows f)
                          (column_where_notnull_none none_casts <$> columns f)]> h).
Proof.
  intros Hdf. unfold where_notnull_none. erewrite St_bind_run; [reflexivity|].
  unfold deref. by rewrite (lookup_total_correct _ _ _ Hdf).
Qed.

(** What a call does to the store: it allocates the copy and the result, and
    touches nothing else. *)
Lemma sanitize_dataframe_run (none_casts : bool) (h : heap) (df : loc)
    (f : DataFrame) :
  h !! df = Some f ->
  let l1 := fresh (dom h) in
  let h1 := <[l1 := mkFrame (n_rows f)
                      ((fun s => if is_datetime s then datetime_to_object s else s)
                         <$> columns f)]> h in
  let l2 := fresh (dom h1) in
  sanitize_dataframe none_casts df h
  = (l2, <[l2 := sanitize_frame none_casts f]> h1).
Proof.
  intros Hdf l1 h1 l2. unfold sanitize_dataframe.
  rewrite (St_bind_run _ _ _ _ _ (copy_run h df f Hdf)). fold l1.
  assert (<[l1 := f]> h !! l1 = Some f) as Hl1 by apply lookup_insert_eq.
  rewrite (St_bind_run _ _ _ _ _ (select_datetime_columns_run _ _ _ Hl1)).
  destruct f as [n m]. cbn [columns n_rows] in *.
  rewrite (St_bind_run _ _ _ _ _ (for_each_setitem l1 _ n m _ Hl1)).
  rewrite loop_columns_datetime, insert_insert_eq. fold h1.
  assert (h1 !! l1 = Some (mkFrame n
            ((fun s => if is_datetime s then datetime_to_object s else s) <$> m)))
    as Hh1 by apply lookup_insert_eq.
  rewrite (St_bind_run _ _ _ _ _ (where_notnull_none_run none_casts _ _ _ Hh1)).
  fold l2.
  unfold mret, St_ret, sanitize_frame, sanitize_series. cbn [columns n_rows].
  by rewrite <- map_fmap_compose.
Qed.

(** C9.  A call of [sanitize_dataframe] leaves its argument as it was: the
    frame object passed in holds the same columns and values afterwards, the
    result is another, newly allocated object, and every object that existed
    before the call is unchanged. *)
Theorem sanitize_leaves_input_unchanged (none_casts : bool) (h : heap)
    (df : loc) (f : DataFrame) :
  h !! df = Some f ->
  let '(r, h') := sanitize_dataframe none_casts df h in
  h' !! df = Some f /\
  r <> df /\
  h !! r = None /\
  h' !! r = Some (sanitize_frame none_casts f) /\
  forall l, is_Some (h !! l) -> h' !! l = h !! l.
Proof.
  intros Hdf. rewrite (sanitize_dataframe_run none_casts h df f Hdf).
  set (l1 := fresh (dom h)).
  set (h1 := <[l1 := _]> h).
  set (l2 := fresh (dom h1)).
  assert (h !! l1 = None) as Hl1 by apply not_elem_of_dom, is_fresh.
  assert (h1 !! l2 = None) as Hl2 by apply not_elem_of_dom, is_fresh.
  assert (l1 <> l2) as Hne.
  { intros E. rewrite <- E in Hl2. unfold h1 in Hl2.
    by rewrite lookup_insert_eq in Hl2. }
  assert (h !! l2 = None) as Hl2'.
  { unfold h1 in Hl2. by rewrite lookup_insert_ne in Hl2. }
  assert (forall l, is_Some (h !! l) ->
                    <[l2 := sanitize_frame none_casts f]> h1 !! l = h !! l)
    as Hframe.
  { intros l [x Hx]. unfold h1.
    rewrite !lookup_insert_ne; [reflexivity|congruence|congruence]. }
  repeat split.
  - rewrite Hframe by eauto. exact Hdf.
  - congruence.
  - exact Hl2'.
  - apply lookup_insert_eq.
  - exact Hframe.
Qed.

Lemma sanitize_leaves_input_unchanged_witness :
  let '(r, h') := sanitize_dataframe false 1%positive sample_heap in
  h' !! 1%positive = Some sample_frame /\
  r <> 1%positive /\
  sample_heap !! r = None /\
  h' !! r = Some (sanitize_frame false sample_frame) /\
  forall l, is_Some (sample_heap !! l) -> h' !! l = sample_heap !! l.
Proof.
  apply (sanitize_leaves_input_unchanged false sample_heap 1%positive
           sample_frame).
  reflexivity.
Defined.

(** C8.  Sanitizing a sanitized frame gives the same frame again:
    the second call returns an object equal, column by column and value by
    value, to the one it was given.  The program is a total function of the
    store: none of its steps can raise. *)
Theorem sanitize_idempotent (none_casts : bool) (h : heap) (df : loc)
    (f : DataFrame) :
  h !! df = Some f ->
  let '(r1, h1) := sanitize_dataframe none_casts df h in
  let '(r2, h2) := sanitize_dataframe none_casts r1 h1 in
  h1 !! r1 = Some (sanitize_frame none_casts f) /\
  h2 !! r2 = Some (sanitize_frame none_casts f) /\
  sanitize_frame none_casts (sanitize_frame none_casts f)
  = sanitize_frame none_casts f.
Proof.
  intros Hdf. rewrite (sanitize_dataframe_run none_casts h df f Hdf).
  set (l1 := fresh (dom h)).
  set (h1 := <[l1 := _]> h).
  set (l2 := fresh (dom h1)).
  set (h2 := <[l2 := sanitize_frame none_casts f]> h1).
  assert (h2 !! l2 = Some (sanitize_frame none_casts f)) as H2
    by apply lookup_insert_eq.
  rewrite (sanitize_dataframe_run none_casts h2 l2 _ H2).
  rewrite lookup_insert_eq, sanitize_frame_idem. done.
Qed.

Lemma sanitize_idempotent_witness :
  let '(r1, h1) := sanitize_dataframe true 1%positive sample_heap in
  let '(r2, h2) := sanitize_dataframe true r1 h1 in
  h1 !! r1 = Some (sanitize_frame true sample_frame) /\
  h2 !! r2 = Some (sanitize_frame true sample_frame) /\
  sanitize_frame true (sanitize_frame true sample_frame)
  = sanitize_frame true sample_frame.
Proof.
  apply (sanitize_idempotent true sample_heap 1%positive sample_frame).
  reflexivity.
Defined.

(** ** [upload_dataframe_to_mongo] *)

Lemma falsy_set (v : string) : v <> "" -> falsy (Some v) = false.
Proof. intros H. cbn. by apply bool_decide_eq_false. Qed.

Lemma to_dict_records_length (df : DataFrame) :
  length (to_dict_records df) = n_rows df.
Proof. unfold to_dict_records. by rewrite length_fmap, length_seq. Qed.



(** * Further properties of the code *)

(** ** [str.strip] and the normalisation of [parse_currency] *)

Lemma lstrip_by_spaces (sp : N -> bool) (w t : pystr) :
  Forall (fun c => sp c = true) w -> lstrip_by sp (w ++ t) = lstrip_by sp t.
Proof.
  induction 1 as [|c w Hc _ IH]; [reflexivity|].
  cbn [app lstrip_by]. by rewrite Hc.
Qed.

Lemma rstrip_by_spaces (sp : N -> bool) (t w : pystr) :
  Forall (fun c => sp c = true) w -> rstrip_by sp (t ++ w) = rstrip_by sp t.
Proof.
  intros Hw. unfold rstrip_by. rewrite rev_app_distr, lstrip_by_spaces; [done|].
  apply Forall_forall. intros c Hc. rewrite Forall_forall in Hw.
  apply Hw. apply list_elem_of_In. apply in_rev. by apply list_elem_of_In.
Qed.

Lemma lstrip_by_all_spaces (sp : N -> bool) (w : pystr) :
  Forall (fun c => sp c = true) w -> lstrip_by sp w = [].
Proof.
  intros Hw. rewrite <- (app_nil_r w). by rewrite lstrip_by_spaces.
Qed.

Lemma strip_by_spaces (sp : N -> bool) (w t w' : pystr) :
  Forall (fun c => sp c = true) w ->
  Forall (fun c => sp c = true) w' ->
  strip_by sp (w ++ t ++ w') = strip_by sp t.
Proof.
  intros Hw Hw'. unfold strip_by. rewrite lstrip_by_spaces by exact Hw.
  induction t as [|c t IH]; cbn [app lstrip_by].
  - by rewrite lstrip_by_all_spaces.
  - destruct (sp c); [exact IH|].
    by rewrite app_comm_cons, rstrip_by_spaces.
Qed.

Lemma lstrip_by_no_space (sp : N -> bool) (t : pystr) :
  Forall (fun c => sp c = false) t -> lstrip_by sp t = t.
Proof. destruct 1 as [|c t Hc _]; [reflexivity|]. cbn. by rewrite Hc. Qed.

Lemma strip_by_no_space (sp : N -> bool) (t : pystr) :
  Forall (fun c => sp c = false) t -> strip_by sp t = t.
Proof.
  intros Ht. unfold strip_by, rstrip_by.
  rewrite (lstrip_by_no_space sp t Ht), lstrip_by_no_space, rev_involutive; [done|].
  apply Forall_forall. intros c Hc. rewrite Forall_forall in Ht.
  apply Ht. apply list_elem_of_In. apply in_rev. by apply list_elem_of_In.
Qed.

Lemma lstrip_by_elem (sp : N -> bool) (t : pystr) (x : N) :
  x ∈ lstrip_by sp t -> x ∈ t.
Proof.
  induction t as [|c t IH]; cbn [lstrip_by]; [done|].
  destruct (sp c); [|done]. intros H. by apply list_elem_of_further, IH.
Qed.

Lemma strip_by_elem (sp : N -> bool) (t : pystr) (x : N) :
  x ∈ strip_by sp t -> x ∈ t.
Proof.
  unfold strip_by, rstrip_by. intros H.
  apply lstrip_by_elem with (sp := sp).
  apply list_elem_of_In, in_rev, list_elem_of_In.
  apply lstrip_by_elem with (sp := sp).
  by apply list_elem_of_In, in_rev, list_elem_of_In in H.
Qed.

Lemma spec_translate_elem (c x : N) :
  x ∈ spec_translate c -> x <> EURO /\ x <> NBSP /\ x <> COMMA.
Proof.
  unfold spec_translate.
  destruct (N.eqb_spec c EURO) as [|H1]; cbn [orb]; [by intros ?%not_elem_of_nil|].
  destruct (N.eqb_spec c NBSP) as [|H2]; cbn [orb]; [by intros ?%not_elem_of_nil|].
  destruct (N.eqb_spec c DOT) as [|H3]; cbn [orb]; [by intros ?%not_elem_of_nil|].
  destruct (N.eqb_spec c COMMA) as [|H4].
  - intros ->%list_elem_of_singleton. done.
  - intros ->%list_elem_of_singleton. done.
Qed.

(** X1.  The text that [parse_currency] hands to [float] holds no euro sign,
    no non-breaking space and no comma, whatever the input. *)
Theorem normalise_has_no_symbols (s : pystr) :
  (EURO ∉ normalise s) /\ (NBSP ∉ normalise s) /\ (COMMA ∉ normalise s).
Proof.
  assert (forall x, x ∈ normalise s -> x <> EURO /\ x <> NBSP /\ x <> COMMA) as H.
  { intros x Hx. rewrite normalise_spec in Hx. unfold spec_normalise, strip in Hx.
    apply strip_by_elem in Hx.
    apply list_elem_of_In, in_flat_map in Hx as (c & _ & Hc).
    apply (spec_translate_elem c). by apply list_elem_of_In. }
  repeat split; intros Hx; apply H in Hx; tauto.
Qed.

(** X2.  Euro signs, non-breaking spaces and points are dropped wherever
    they stand: putting one anywhere into the text changes neither the
    normalised text nor the result of [parse_currency]. *)
Theorem parse_currency_ignores_separators (a b : pystr) (c : N) :
  c = EURO \/ c = NBSP \/ c = DOT ->
  normalise (a ++ c :: b) = normalise (a ++ b) /\
  parse_currency (Some (a ++ c :: b)) = parse_currency (Some (a ++ b)).
Proof.
  intros Hc.
  assert (normalise (a ++ c :: b) = normalise (a ++ b)) as E.
  { rewrite !normalise_spec. unfold spec_normalise. f_equal.
    rewrite !flat_map_app. cbn [flat_map].
    replace (spec_translate c) with (@nil N); [reflexivity|].
    destruct Hc as [->|[->| ->]]; reflexivity. }
  split; [exact E|]. unfold parse_currency. by rewrite E.
Qed.

Lemma parse_currency_ignores_separators_witness :
  parse_currency (Some (lit "1.234.567,5 €"))
  = parse_currency (Some (lit "1234.567,5 €")).
Proof.
  apply (parse_currency_ignores_separators (lit "1") (lit "234.567,5 €") DOT).
  right. right. reflexivity.
Defined.

Lemma spec_translate_space (c : N) :
  isspace c = true -> Forall (fun x => isspace x = true) (spec_translate c).
Proof.
  intros Hc. unfold spec_translate.
  destruct ((c =? EURO) || (c =? NBSP) || (c =? DOT))%N; [constructor|].
  destruct (N.eqb_spec c COMMA) as [->|_]; [discriminate Hc|].
  by repeat constructor.
Qed.

(** X3.  White space around the text does not matter: [parse_currency]
    gives the same result, or raises alike, with and without it. *)
Theorem parse_currency_ignores_outer_space (w s w' : pystr) :
  Forall (fun c => isspace c = true) w ->
  Forall (fun c => isspace c = true) w' ->
  parse_currency (Some (w ++ s ++ w')) = parse_currency (Some s).
Proof.
  intros Hw Hw'. unfold parse_currency. f_equal.
  rewrite !normalise_spec. unfold spec_normalise, strip.
  rewrite !flat_map_app. apply strip_by_spaces.
  - apply Forall_forall. intros x Hx.
    apply list_elem_of_In, in_flat_map in Hx as (c & Hc & Hx).
    rewrite Forall_forall in Hw.
    pose proof (spec_translate_space c (Hw c (proj2 (list_elem_of_In _ _) Hc))) as H.
    rewrite Forall_forall in H. apply H. by apply list_elem_of_In.
  - apply Forall_forall. intros x Hx.
    apply list_elem_of_In, in_flat_map in Hx as (c & Hc & Hx).
    rewrite Forall_forall in Hw'.
    pose proof (spec_translate_space c (Hw' c (proj2 (list_elem_of_In _ _) Hc))) as H.
    rewrite Forall_forall in H. apply H. by apply list_elem_of_In.
Qed.

Lemma parse_currency_ignores_outer_space_witness :
  parse_currency (Some (lit "  " ++ lit "€12,50" ++ [9%N; 10%N]))
  = parse_currency (Some (lit "€12,50")).
Proof.
  apply (parse_currency_ignores_outer_space (lit "  ") (lit "€12,50") [9%N; 10%N]);
    repeat constructor.
Defined.

(** ** Decimal texts *)

Lemma is_digit_cases (c : N) :
  is_digit c = true ->
  (c = 48 \/ c = 49 \/ c = 50 \/ c = 51 \/ c = 52 \/ c = 53 \/ c = 54
   \/ c = 55 \/ c = 56 \/ c = 57)%N.
Proof.
  unfold is_digit. intros [H1 H2]%andb_true_iff.
  apply N.leb_le in H1. apply N.leb_le in H2. lia.
Qed.

Lemma digit_plain (c : N) : is_digit c = true -> plain c.
Proof.
  intros H. destruct (is_digit_cases c H) as [->|[->|[->|[->|[->|[->|[->|[->|[->| ->]]]]]]]]];
    repeat split.
Qed.

Lemma digit_translate (c : N) : is_digit c = true -> spec_translate c = [c].
Proof.
  intros H. by destruct (is_digit_cases c H)
    as [->|[->|[->|[->|[->|[->|[->|[->|[->| ->]]]]]]]]].
Qed.

Lemma to_ascii_plain (t : pystr) : Forall plain t -> to_ascii t = t.
Proof.
  induction 1 as [|c t (Hc & _) _ IH]; [reflexivity|].
  cbn [to_ascii]. by rewrite Hc, IH.
Qed.

Lemma drop_underscores_plain (t : pystr) (prev : N) :
  (prev =? UNDERSCORE)%N = false -> Forall plain t ->
  drop_underscores prev t = Some t.
Proof.
  intros Hp Ht. revert prev Hp.
  induction Ht as [|c t (_ & _ & _ & Hc) _ IH]; intros prev Hp;
    cbn [drop_underscores].
  - by rewrite Hp.
  - rewrite Hc, Hp. cbn [andb]. by rewrite (IH c Hc).
Qed.

Lemma span_digits_all (ds : pystr) :
  Forall (fun c => is_digit c = true) ds ->
  span_digits ds = ((fun c => c - 48)%N <$> ds, []).
Proof.
  induction 1 as [|c ds Hc _ IH]; [reflexivity|].
  cbn [span_digits fmap list_fmap]. by rewrite Hc, IH.
Qed.

Lemma span_digits_until (ds : pystr) (c : N) (rest : pystr) :
  Forall (fun c => is_digit c = true) ds -> is_digit c = false ->
  span_digits (ds ++ c :: rest) = ((fun c => c - 48)%N <$> ds, c :: rest).
Proof.
  intros Hds Hc. induction Hds as [|d ds Hd _ IH].
  - cbn. by rewrite Hc.
  - cbn [app span_digits fmap list_fmap]. by rewrite Hd, IH.
Qed.

Lemma take_sign_digit (d : N) (t : pystr) :
  is_digit d = true -> take_sign (d :: t) = (false, d :: t).
Proof.
  intros H. by destruct (is_digit_cases d H)
    as [->|[->|[->|[->|[->|[->|[->|[->|[->| ->]]]]]]]]].
Qed.

(** The parser on an optional minus sign, digits, a point and digits. *)
Lemma parse_float_decimal (neg : bool) (ip fp : pystr) :
  Forall (fun c => is_digit c = true) ip ->
  Forall (fun c => is_digit c = true) fp ->
  ip <> [] ->
  parse_float ((if neg then [45%N] else []) ++ ip ++ DOT :: fp)
  = Some (decimal_value neg
            (digits_value ((fun c => c - 48)%N <$> ip ++ fp))
            (- Z.of_nat (length fp))).
Proof.
  intros Hip Hfp Hne.
  assert (Forall plain ((if neg then [45%N] else []) ++ ip ++ DOT :: fp)) as Hpl.
  { apply Forall_app. split; [destruct neg; repeat constructor|].
    apply Forall_app. split.
    - eapply Forall_impl; [exact Hip|]. apply digit_plain.
    - constructor; [repeat split|].
      eapply Forall_impl; [exact Hfp|]. apply digit_plain. }
  unfold parse_float. rewrite (to_ascii_plain _ Hpl).
  rewrite strip_by_no_space.
  2:{ eapply Forall_impl; [exact Hpl|]. intros c Hc. apply Hc. }
  rewrite (drop_underscores_plain _ 0%N eq_refl Hpl). cbn [mbind option_bind].
  assert (parse_number ((if neg then [45%N] else []) ++ ip ++ DOT :: fp)
          = Some (decimal_value neg
                    (digits_value ((fun c => c - 48)%N <$> ip ++ fp))
                    (- Z.of_nat (length fp)))) as ->; [|reflexivity].
  unfold parse_number.
  assert (take_sign ((if neg then [45%N] else []) ++ ip ++ DOT :: fp)
          = (neg, ip ++ DOT :: fp)) as ->.
  { destruct neg; [reflexivity|]. cbn [app].
    destruct ip as [|d ip]; [done|].
    apply Forall_cons in Hip as [Hd _]. by apply take_sign_digit. }
  rewrite (span_digits_until ip DOT fp Hip eq_refl).
  unfold DOT. rewrite (span_digits_all fp Hfp).
  rewrite fmap_app, length_fmap.
  destruct ((fun c => c - 48)%N <$> ip) as [|v vs] eqn:E.
  - destruct ip; [done|discriminate E].
  - reflexivity.
Qed.

(** X4.  On a text made of an optional minus sign, at least one digit, a
    comma and further digits, [parse_currency] returns the decimal number
    written there: the digits read as one integer, scaled down by one power
    of ten per digit after the comma. *)
Theorem parse_currency_decimal_comma (neg : bool) (ip fp : pystr) :
  Forall (fun c => is_digit c = true) ip ->
  Forall (fun c => is_digit c = true) fp ->
  ip <> [] ->
  parse_currency (Some ((if neg then [45%N] else []) ++ ip ++ COMMA :: fp))
  = Ok (decimal_value neg
          (digits_value ((fun c => c - 48)%N <$> ip ++ fp))
          (- Z.of_nat (length fp))).
Proof.
  intros Hip Hfp Hne. unfold parse_currency, float.
  assert (normalise ((if neg then [45%N] else []) ++ ip ++ COMMA :: fp)
          = (if neg then [45%N] else []) ++ ip ++ DOT :: fp) as ->.
  { assert (forall ds, Forall (fun c => is_digit c = true) ds ->
                       flat_map spec_translate ds = ds) as Hds.
    { induction 1 as [|c ds Hc _ IH]; [reflexivity|].
      cbn [flat_map]. by rewrite IH, (digit_translate c Hc). }
    rewrite normalise_spec. unfold spec_normalise, strip.
    rewrite !flat_map_app. cbn [flat_map]. rewrite (Hds ip Hip), (Hds fp Hfp).
    replace (flat_map spec_translate (if neg then [45%N] else []))
      with (if neg then [45%N] else @nil N) by (by destruct neg).
    replace (spec_translate COMMA) with [DOT] by reflexivity. cbn [app].
    apply strip_by_no_space.
    apply Forall_app. split; [destruct neg; repeat constructor|].
    apply Forall_app. split.
    - eapply Forall_impl; [exact Hip|]. intros c Hc. apply (digit_plain c Hc).
    - constructor; [reflexivity|].
      eapply Forall_impl; [exact Hfp|]. intros c Hc. apply (digit_plain c Hc). }
  by rewrite (parse_float_decimal neg ip fp Hip Hfp Hne).
Qed.

Lemma parse_currency_decimal_comma_witness :
  parse_currency (Some (lit "-1234,56"))
  = Ok (decimal_value true 123456 (-2)).
Proof.
  apply (parse_currency_decimal_comma true (lit "1234") (lit "56"));
    [repeat constructor|repeat constructor|discriminate].
Defined.

(** ** The merged frame: which rows it holds, and in which order *)

Lemma merge_left_complete {L R : Type} (left_on : L -> key)
    (right_on : R -> key) (left : list L) (right : list R) (l : L) (r : R) :
  l ∈ left -> r ∈ right -> right_on r = left_on l ->
  (l, Some r) ∈ merge_left left_on right_on left right.
Proof.
  intros Hl Hr Hk. rewrite merge_left_block.
  apply list_elem_of_In, in_flat_map. exists l.
  split; [by apply list_elem_of_In|]. apply list_elem_of_In.
  assert (r ∈ matching right_on (left_on l) right) as Hm
    by (by apply list_elem_of_filter).
  unfold block. destruct (matching right_on (left_on l) right) as [|m ms].
  - by apply not_elem_of_nil in Hm.
  - by apply list_elem_of_fmap_2 with (f := fun r => (l, Some r)).
Qed.

Lemma block_fst {L R : Type} (left_on : L -> key) (right_on : R -> key)
    (right : list R) (l : L) :
  fst <$> block left_on right_on right l
  = replicate (Nat.max 1 (length (matching right_on (left_on l) right))) l.
Proof.
  unfold block. destruct (matching right_on (left_on l) right) as [|m ms];
    [reflexivity|].
  rewrite <- list_fmap_compose.
  replace (Nat.max 1 (length (m :: ms))) with (length (m :: ms)) by (cbn; lia).
  generalize (m :: ms). intros k.
  induction k as [|x k IH]; [reflexivity|]. cbn. by rewrite <- IH.
Qed.

(** A left merge lists the left rows in order, each as often as it has
    matches (once when it has none). *)
Lemma merge_left_fst {L R : Type} (left_on : L -> key) (right_on : R -> key)
    (left : list L) (right : list R) :
  fst <$> merge_left left_on right_on left right
  = flat_map (fun l =>
      replicate (Nat.max 1 (length (matching right_on (left_on l) right))) l)
      left.
Proof.
  rewrite merge_left_block.
  induction left as [|l left IH]; [reflexivity|].
  cbn [flat_map]. by rewrite fmap_app, block_fst, IH.
Qed.

Lemma flat_map_replicate_same {A B : Type} (f : A -> B) (g : A -> nat)
    (n : nat) (b : B) (X : list A) :
  Forall (fun x => f x = b /\ g x = n) X ->
  f <$> flat_map (fun x => replicate (g x) x) X = replicate (length X * n) b.
Proof.
  induction 1 as [|x X [Hf Hg] _ IH]; [reflexivity|].
  cbn [flat_map length Nat.mul].
  by rewrite fmap_app, fmap_replicate, IH, Hf, Hg, replicate_add.
Qed.

Lemma joined_leads (campaigns : list Campaign) (leads : list Lead)
    (inscriptions : list Inscription) :
  j_lead <$> joined campaigns leads inscriptions
  = flat_map (fun ld => replicate (multiplicity campaigns inscriptions ld) ld)
      leads.
Proof.
  unfold joined.
  change j_lead with (fst ∘ @fst (Lead * option Campaign) (option Inscription)).
  rewrite list_fmap_compose, merge_left_fst.
  rewrite (merge_left_block input_channel campaign_id).
  induction leads as [|ld leads IH]; [reflexivity|].
  cbn [flat_map]. rewrite flat_map_app, fmap_app, IH. f_equal.
  rewrite (flat_map_replicate_same fst _
             (Nat.max 1 (length (matching insc_lead_id (lead_id ld) inscriptions)))
             ld).
  - by rewrite block_length.
  - apply Forall_forall. intros x Hx. apply block_left in Hx. by rewrite Hx.
Qed.

Lemma joined_complete (campaigns : list Campaign) (leads : list Lead)
    (inscriptions : list Inscription) (ld : Lead) (ins : Inscription) :
  ld ∈ leads -> ins ∈ inscriptions -> insc_lead_id ins = lead_id ld ->
  exists j, j ∈ joined campaigns leads inscriptions
            /\ j_lead j = ld /\ j_inscription j = Some ins.
Proof.
  intros Hld Hins Hk.
  destruct (merge_left_keeps input_channel campaign_id leads campaigns ld Hld)
    as [oc Hoc].
  exists (ld, oc, Some ins). split; [|done].
  by apply (merge_left_complete (fun lc : Lead * option Campaign => lead_id lc.1)
              insc_lead_id).
Qed.

Lemma joined_row (campaigns : list Campaign) (leads : list Lead)
    (inscriptions : list Inscription) (j : Joined) :
  j ∈ joined campaigns leads inscriptions ->
  j_lead j ∈ leads /\
  match j_campaign j with
  | Some c => c ∈ campaigns /\ campaign_id c = input_channel (j_lead j)
  | None => matching campaign_id (input_channel (j_lead j)) campaigns = []
  end /\
  match j_inscription j with
  | Some ins => ins ∈ inscriptions /\ insc_lead_id ins = lead_id (j_lead j)
  | None => matching insc_lead_id (lead_id (j_lead j)) inscriptions = []
  end.
Proof.
  intros Hj. unfold joined in Hj.
  apply merge_left_elem in Hj as [H1 H2].
  apply merge_left_elem in H1 as [H1 H3]. done.
Qed.

(** X5.  Every record of the output is the join the code asks for: its lead
    is one of the leads; its campaign, when there is one, is a campaign whose
    [campaign_id] is the lead's [input_channel], and there is none only when
    no campaign has that id; likewise its inscription and the lead's
    [lead_id]. *)
Theorem records_are_matching_joins (parse_date : pystr -> option Z)
    (campaigns : list Campaign) (leads : list Lead)
    (inscriptions : list Inscription) (out : list EnrichedRecord)
    (r : EnrichedRecord) :
  prepare_dataset parse_date campaigns leads inscriptions = Ok out ->
  r ∈ out ->
  j_lead (source r) ∈ leads /\
  match j_campaign (source r) with
  | Some c => c ∈ campaigns /\ campaign_id c = input_channel (j_lead (source r))
  | None => matching campaign_id (input_channel (j_lead (source r))) campaigns = []
  end /\
  match j_inscription (source r) with
  | Some ins =>
      ins ∈ inscriptions /\ insc_lead_id ins = lead_id (j_lead (source r))
  | None => matching insc_lead_id (lead_id (j_lead (source r))) inscriptions = []
  end.
Proof.
  intros H Hr. apply joined_row.
  rewrite <- (prepare_dataset_sources parse_date _ _ _ _ H).
  by apply list_elem_of_fmap_2.
Qed.

Lemma records_are_matching_joins_witness :
  exists out r,
    prepare_dataset no_text_dates [campaign_a] [lead_L1] [three_days] = Ok out /\
    r ∈ out /\
    j_campaign (source r) = Some campaign_a /\
    j_inscription (source r) = Some three_days /\
    j_lead (source r) ∈ [lead_L1].
Proof.
  eexists. eexists. split; [reflexivity|]. split; [apply list_elem_of_here|].
  split; [reflexivity|]. split; [reflexivity|].
  eapply (records_are_matching_joins no_text_dates [campaign_a] [lead_L1]
            [three_days]); [reflexivity|apply list_elem_of_here].
Defined.

(** X6.  The output lists the leads in their input order, all records of one
    lead together, each lead once per pair of a matching campaign and a
    matching inscription and at least once: no lead is dropped, also when
    keys are duplicated. *)
Theorem leads_kept_in_order (parse_date : pystr -> option Z)
    (campaigns : list Campaign) (leads : list Lead)
    (inscriptions : list Inscription) (out : list EnrichedRecord) :
  prepare_dataset parse_date campaigns leads inscriptions = Ok out ->
  j_lead ∘ source <$> out
  = flat_map (fun ld => replicate (multiplicity campaigns inscriptions ld) ld)
      leads
  /\ forall ld, ld ∈ leads -> exists r, r ∈ out /\ j_lead (source r) = ld.
Proof.
  intros H. split.
  - rewrite list_fmap_compose, (prepare_dataset_sources parse_date _ _ _ _ H).
    apply joined_leads.
  - intros ld Hld.
    destruct (joined_keeps campaigns leads inscriptions ld Hld) as (j & Hj & Hjl).
    rewrite <- (prepare_dataset_sources parse_date _ _ _ _ H) in Hj.
    apply list_elem_of_fmap in Hj as (r & -> & Hr). by exists r.
Qed.

Lemma leads_kept_in_order_witness :
  exists out,
    prepare_dataset no_text_dates [campaign_a; campaign_b]
      [lead_L1; mkLead None None (DStamp 5) None] [three_days; hour_before]
    = Ok out
    /\ j_lead ∘ source <$> out
       = [lead_L1; lead_L1; lead_L1; lead_L1; mkLead None None (DStamp 5) None].
Proof.
  eexists. split; [reflexivity|].
  apply (leads_kept_in_order no_text_dates [campaign_a; campaign_b]
           [lead_L1; mkLead None None (DStamp 5) None] [three_days; hour_before]).
  reflexivity.
Defined.

(** ** When the enrichment returns *)

(** X7.  The enrichment returns only when the date and the cost of every
    lead are well formed, and so are the date and the amount of every
    inscription whose [lead_id] is that of some lead: one malformed cell
    among these, in whatever row, makes the whole call raise. *)
Theorem returns_only_on_well_formed_cells (parse_date : pystr -> option Z)
    (campaigns : list Campaign) (leads : list Lead)
    (inscriptions : list Inscription) (out : list EnrichedRecord) :
  prepare_dataset parse_date campaigns leads inscriptions = Ok out ->
  Forall (fun ld => date_ok parse_date (created_at ld) /\ currency_ok (cost ld))
    leads
  /\ Forall (fun ins =>
       (exists ld, ld ∈ leads /\ lead_id ld = insc_lead_id ins) ->
       date_ok parse_date (insc_created_at ins) /\ currency_ok (amount ins))
     inscriptions.
Proof.
  rewrite prepare_dataset_rowwise. intros H. apply mapM_Ok in H.
  assert (forall j, j ∈ joined campaigns leads inscriptions ->
                    exists r, enrich_row parse_date j = Ok r) as Hall.
  { intros j Hj. apply list_elem_of_lookup in Hj as [i Hi].
    destruct (Forall2_lookup_l _ _ _ _ _ H Hi) as (r & _ & Hr). by exists r. }
  split; apply Forall_forall.
  - intros ld Hld.
    destruct (joined_keeps campaigns leads inscriptions ld Hld)
      as (j & Hj & <-).
    destruct (Hall j Hj) as [r Hr].
    apply enrich_row_Ok in Hr as (lc & ? & cf & ? & Hlc & _ & Hcf & _).
    split; [by exists lc|by exists cf].
  - intros ins Hins (ld & Hld & Hk).
    destruct (joined_complete campaigns leads inscriptions ld ins Hld Hins
                (eq_sym Hk)) as (j & Hj & _ & Hji).
    destruct (Hall j Hj) as [r Hr].
    apply enrich_row_Ok in Hr as (? & ic & ? & af & _ & Hic & _ & Haf & _).
    unfold col_created_at_insc, col_amount in *. rewrite Hji in *.
    split; [by exists ic|by exists af].
Qed.

Lemma returns_only_on_well_formed_cells_witness :
  Forall (fun ld => date_ok no_text_dates (created_at ld) /\ currency_ok (cost ld))
    [lead_L1]
  /\ Forall (fun ins =>
       (exists ld, ld ∈ [lead_L1] /\ lead_id ld = insc_lead_id ins) ->
       date_ok no_text_dates (insc_created_at ins) /\ currency_ok (amount ins))
     [three_days; hour_before].
Proof.
  apply (returns_only_on_well_formed_cells no_text_dates [campaign_a] [lead_L1]
           [three_days; hour_before] _ eq_refl).
Defined.

Lemma merge_left_filter_right {L R : Type} (left_on : L -> key)
    (right_on : R -> key) (P : R -> Prop) `{forall r, Decision (P r)}
    (left : list L) (right : list R) :
  (forall l r, l ∈ left -> right_on r = left_on l -> P r) ->
  merge_left left_on right_on left (filter P right)
  = merge_left left_on right_on left right.
Proof.
  intros HP. rewrite !merge_left_block.
  induction left as [|l left IH]; [reflexivity|].
  cbn [flat_map]. rewrite IH.
  - f_equal. unfold block, matching. rewrite list_filter_filter.
    rewrite (list_filter_iff _ (fun r => right_on r = left_on l)); [reflexivity|].
    intros r. split; [tauto|]. intros Hr. split; [exact Hr|].
    apply (HP l r); [apply list_elem_of_here|exact Hr].
  - intros l' r Hl'. apply HP. by apply list_elem_of_further.
Qed.

(** X8.  Campaigns that no lead points to and inscriptions that belong to no
    lead do not influence the result: leaving them out of the input gives
    the same output, or the same failure. *)
Theorem unreferenced_rows_are_ignored (parse_date : pystr -> option Z)
    (campaigns : list Campaign) (leads : list Lead)
    (inscriptions : list Inscription) :
  prepare_dataset parse_date
    (filter (fun c => campaign_id c ∈ input_channel <$> leads) campaigns)
    leads
    (filter (fun ins => insc_lead_id ins ∈ lead_id <$> leads) inscriptions)
  = prepare_dataset parse_date campaigns leads inscriptions.
Proof.
  unfold prepare_dataset. f_equal.
  rewrite (merge_left_filter_right input_channel campaign_id).
  - apply merge_left_filter_right. intros lc ins Hlc Hk.
    apply merge_left_elem in Hlc as [Hld _]. rewrite Hk.
    by apply list_elem_of_fmap_2.
  - intros ld c Hld Hk. rewrite Hk. by apply list_elem_of_fmap_2.
Qed.

(** ** The derived columns *)

(** X9.  A record whose lead has no inscription (no inscription carries its
    [lead_id]) has a null inscription date, a null day count and a NaN
    amount, is neither converted nor a valid conversion, and carries
    NO_ANOMALY. *)
Theorem lead_without_inscription (parse_date : pystr -> option Z)
    (campaigns : list Campaign) (leads : list Lead)
    (inscriptions : list Inscription) (out : list EnrichedRecord)
    (r : EnrichedRecord) :
  prepare_dataset parse_date campaigns leads inscriptions = Ok out ->
  r ∈ out ->
  matching insc_lead_id (lead_id (j_lead (source r))) inscriptions = [] ->
  j_inscription (source r) = None /\
  inscription_created_at r = None /\
  conversion_time_days r = None /\
  isnan (amount_float r) = true /\
  converted r = false /\
  conversion_valid r = false /\
  conversion_anomaly_type r = NO_ANOMALY.
Proof.
  intros H Hr Hm.
  assert (source r ∈ joined campaigns leads inscriptions) as Hs.
  { rewrite <- (prepare_dataset_sources parse_date _ _ _ _ H).
    by apply list_elem_of_fmap_2. }
  apply joined_row in Hs as (_ & _ & Hins).
  destruct (prepare_dataset_row _ _ _ _ _ _ H Hr) as (j & _ & Hj).
  apply enrich_row_Ok in Hj as (lc & ic & cf & af & _ & Hic & _ & Haf & ->).
  cbn in *.
  destruct (j_inscription j) as [ins|] eqn:Ej.
  - exfalso. destruct Hins as [Hi Hk].
    assert (ins ∈ matching insc_lead_id (lead_id (j_lead j)) inscriptions) as Hin
      by (by apply list_elem_of_filter).
    rewrite Hm in Hin. by apply not_elem_of_nil in Hin.
  - unfold col_created_at_insc, col_amount in *. rewrite Ej in *. cbn in *.
    injection Hic as <-. injection Haf as <-. done.
Qed.

Lemma lead_without_inscription_witness :
  exists out r,
    prepare_dataset no_text_dates [campaign_a] [lead_L1] [] = Ok out /\
    r ∈ out /\
    converted r = false /\
    conversion_anomaly_type r = NO_ANOMALY.
Proof.
  eexists. eexists. split; [reflexivity|]. split; [apply list_elem_of_here|].
  pose proof (lead_without_inscription no_text_dates [campaign_a] [lead_L1] []
                _ _ eq_refl (list_elem_of_here _ _) eq_refl) as H.
  split; apply H.
Defined.

Lemma floor_days (x : Z) :
  NS_PER_DAY * (x `div` NS_PER_DAY) <= x < NS_PER_DAY * (x `div` NS_PER_DAY + 1).
Proof.
  assert (0 < NS_PER_DAY) as Hpos by reflexivity.
  pose proof (Z.div_mod x NS_PER_DAY) as Hdm.
  pose proof (Z.mod_pos_bound x NS_PER_DAY Hpos). lia.
Qed.

(** X10.  For a record with both dates, [conversion_time_days] is the number
    of whole days from the lead to the inscription rounded down: the
    inscription lies at least that many days and less than one day more
    after the lead, also when it lies before it. *)
Theorem conversion_time_days_is_floor (parse_date : pystr -> option Z)
    (campaigns : list Campaign) (leads : list Lead)
    (inscriptions : list Inscription) (out : list EnrichedRecord)
    (r : EnrichedRecord) (l i : Z) :
  prepare_dataset parse_date campaigns leads inscriptions = Ok out ->
  r ∈ out ->
  lead_created_at r = Some l ->
  inscription_created_at r = Some i ->
  exists d, conversion_time_days r = Some d
            /\ NS_PER_DAY * d <= i - l < NS_PER_DAY * (d + 1).
Proof.
  intros H Hr.
  destruct (prepare_dataset_row _ _ _ _ _ _ H Hr) as (j & _ & Hj).
  apply enrich_row_Ok in Hj as (lc & ic & cf & af & _ & _ & _ & _ & ->).
  cbn. intros -> ->. eexists. split; [reflexivity|]. apply floor_days.
Qed.

Lemma conversion_time_days_is_floor_witness :
  exists out r d,
    prepare_dataset no_text_dates [campaign_a] [lead_L1] [three_days] = Ok out /\
    r ∈ out /\
    conversion_time_days r = Some d /\
    NS_PER_DAY * d <= 3 * NS_PER_DAY - 0 < NS_PER_DAY * (d + 1).
Proof.
  eexists. eexists.
  destruct (conversion_time_days_is_floor no_text_dates [campaign_a] [lead_L1]
              [three_days] _ _ 0 (3 * NS_PER_DAY) eq_refl
              (list_elem_of_here _ _) eq_refl eq_refl) as (d & Hd & Hb).
  exists d. split; [reflexivity|]. split; [apply list_elem_of_here|].
  split; [exact Hd|exact Hb].
Defined.

(** X11.  For a record with both dates, the conversion is valid exactly when
    the inscription is not earlier than the lead, and the record is
    classified NEGATIVE_CONVERSION_TIME exactly when the inscription is
    earlier, by however little; otherwise it carries NO_ANOMALY. *)
Theorem valid_iff_inscription_not_earlier (parse_date : pystr -> option Z)
    (campaigns : list Campaign) (leads : list Lead)
    (inscriptions : list Inscription) (out : list EnrichedRecord)
    (r : EnrichedRecord) (l i : Z) :
  prepare_dataset parse_date campaigns leads inscriptions = Ok out ->
  r ∈ out ->
  lead_created_at r = Some l ->
  inscription_created_at r = Some i ->
  converted r = true /\
  (conversion_valid r = true <-> l <= i) /\
  (conversion_anomaly_type r = NEGATIVE_CONVERSION_TIME <-> i < l) /\
  (conversion_anomaly_type r = NO_ANOMALY <-> l <= i).
Proof.
  intros H Hr.
  destruct (prepare_dataset_row _ _ _ _ _ _ H Hr) as (j & _ & Hj).
  apply enrich_row_Ok in Hj as (lc & ic & cf & af & _ & _ & _ & _ & ->).
  cbn. intros -> ->. cbn. unfold detect_anomaly. cbn.
  pose proof (floor_days (i - l)) as Hf.
  assert (0 < NS_PER_DAY) as Hpos by reflexivity.
  split; [reflexivity|].
  destruct (decide (l <= i)) as [Hle|Hgt].
  - assert (0 <= (i - l) `div` NS_PER_DAY) as Hd by nia.
    rewrite (bool_decide_eq_true_2 _ Hd).
    rewrite bool_decide_eq_false_2 by lia.
    repeat split; intros; try done; lia.
  - assert ((i - l) `div` NS_PER_DAY < 0) as Hd by nia.
    rewrite (bool_decide_eq_true_2 _ Hd).
    rewrite bool_decide_eq_false_2 by lia.
    repeat split; intros; try done; lia.
Qed.

Lemma valid_iff_inscription_not_earlier_witness :
  exists out r,
    prepare_dataset no_text_dates [campaign_a] [lead_L1] [hour_before] = Ok out /\
    r ∈ out /\
    conversion_anomaly_type r = NEGATIVE_CONVERSION_TIME.
Proof.
  eexists. eexists. split; [reflexivity|]. split; [apply list_elem_of_here|].
  apply (valid_iff_inscription_not_earlier no_text_dates [campaign_a] [lead_L1]
           [hour_before] _ _ 0 (0 - NS_PER_HOUR) eq_refl
           (list_elem_of_here _ _) eq_refl eq_refl).
  reflexivity.
Defined.

(** X12.  In every record of the output, [converted] says whether the
    inscription date is present, the anomaly is never
    MISSING_INSCRIPTION_DATE, and a record with an anomaly is a converted
    record that is not a valid conversion. *)
Theorem anomaly_only_on_invalid_conversions (parse_date : pystr -> option Z)
    (campaigns : list Campaign) (leads : list Lead)
    (inscriptions : list Inscription) (out : list EnrichedRecord)
    (r : EnrichedRecord) :
  prepare_dataset parse_date campaigns leads inscriptions = Ok out ->
  r ∈ out ->
  (converted r = true <-> inscription_created_at r <> None) /\
  conversion_anomaly_type r <> MISSING_INSCRIPTION_DATE /\
  (conversion_anomaly_type r <> NO_ANOMALY ->
   converted r = true /\ conversion_valid r = false).
Proof.
  intros H Hr.
  destruct (prepare_dataset_row _ _ _ _ _ _ H Hr) as (j & _ & Hj).
  apply enrich_row_Ok in Hj as (lc & ic & cf & af & _ & _ & _ & _ & ->).
  cbn. unfold detect_anomaly.
  destruct ic as [i|], lc as [l|]; cbn; try (repeat split; done).
  destruct (decide ((i - l) `div` NS_PER_DAY < 0)) as [Hd|Hd].
  - rewrite (bool_decide_eq_true_2 _ Hd).
    rewrite bool_decide_eq_false_2 by lia. repeat split; done.
  - rewrite (bool_decide_eq_false_2 _ Hd). repeat split; done.
Qed.

Lemma anomaly_only_on_invalid_conversions_witness :
  exists out r,
    prepare_dataset no_text_dates [campaign_a] [lead_L1] [hour_before] = Ok out /\
    r ∈ out /\
    conversion_anomaly_type r <> NO_ANOMALY /\
    converted r = true /\ conversion_valid r = false.
Proof.
  eexists. eexists. split; [reflexivity|]. split; [apply list_elem_of_here|].
  split; [discriminate|].
  apply (anomaly_only_on_invalid_conversions no_text_dates [campaign_a]
           [lead_L1] [hour_before] _ _ eq_refl (list_elem_of_here _ _)).
  discriminate.
Defined.

(** ** What [sanitize_dataframe] keeps and what it changes *)

Lemma sanitize_series_values (none_casts : bool) (s : Series) :
  s_values (sanitize_series none_casts s)
  = if is_datetime s || is_object s || none_casts
    then fix_null <$> s_values s else s_values s.
Proof.
  destruct (is_datetime s) eqn:E; cbn [orb].
  - by rewrite (sanitize_series_datetime none_casts s E).
  - unfold sanitize_series. rewrite E. unfold column_where_notnull_none.
    by destruct (is_object s || none_casts).
Qed.

Lemma sanitize_dataframe_result (none_casts : bool) (h : heap) (df : loc)
    (f : DataFrame) :
  h !! df = Some f ->
  let '(r, h') := sanitize_dataframe none_casts df h in
  h' !! r = Some (sanitize_frame none_casts f).
Proof.
  intros Hdf. rewrite (sanitize_dataframe_run none_casts h df f Hdf).
  apply lookup_insert_eq.
Qed.

(** X13.  The frame returned by [sanitize_dataframe] has the shape of its
    argument: the same number of rows, the same column names, and as many
    values in each column. *)
Theorem sanitize_keeps_shape (none_casts : bool) (h : heap) (df : loc)
    (f : DataFrame) :
  h !! df = Some f ->
  let '(r, h') := sanitize_dataframe none_casts df h in
  exists g, h' !! r = Some g /\
    n_rows g = n_rows f /\
    dom (columns g) = dom (columns f) /\
    forall k s, columns f !! k = Some s ->
      exists s', columns g !! k = Some s'
                 /\ length (s_values s') = length (s_values s).
Proof.
  intros Hdf. pose proof (sanitize_dataframe_result none_casts h df f Hdf) as Hr.
  destruct (sanitize_dataframe none_casts df h) as [r h'].
  exists (sanitize_frame none_casts f). split; [exact Hr|].
  unfold sanitize_frame. cbn [n_rows columns]. split; [reflexivity|].
  split; [apply dom_fmap_L|].
  intros k s Hk. exists (sanitize_series none_casts s).
  rewrite lookup_fmap, Hk. split; [reflexivity|].
  rewrite sanitize_series_values.
  destruct (_ || _); [apply length_fmap|reflexivity].
Qed.

Lemma sanitize_keeps_shape_witness :
  let '(r, h') := sanitize_dataframe true 1%positive sample_heap in
  exists g, h' !! r = Some g /\
    n_rows g = 2%nat /\
    dom (columns g) = dom (columns sample_frame) /\
    forall k s, columns sample_frame !! k = Some s ->
      exists s', columns g !! k = Some s'
                 /\ length (s_values s') = length (s_values s).
Proof.
  apply (sanitize_keeps_shape true sample_heap 1%positive sample_frame).
  reflexivity.
Defined.



(** X15.  On a frame without datetime columns and without nulls the
    returned frame equals the argument, column for column and value for
    value (it is still a new object). *)
Theorem sanitize_clean_frame_unchanged (none_casts : bool) (h : heap)
    (df : loc) (f : DataFrame) :
  h !! df = Some f ->
  map_Forall (fun _ s => is_datetime s = false
                         /\ Forall (fun c => isnull c = false) (s_values s))
    (columns f) ->
  let '(r, h') := sanitize_dataframe none_casts df h in
  r <> df /\ h' !! r = Some f.
Proof.
  intros Hdf Hclean.
  pose proof (sanitize_dataframe_result none_casts h df f Hdf) as Hr.
  pose proof (sanitize_dataframe_run none_casts h df f Hdf) as Hrun.
  cbn zeta in Hrun.
  destruct (sanitize_dataframe none_casts df h) as [r h'].
  injection Hrun as -> _. split.
  - intros E.
    pose proof (is_fresh (dom (<[fresh (dom h) :=
        mkFrame (n_rows f)
          ((fun s => if is_datetime s then datetime_to_object s else s)
             <$> columns f)]> h))) as Hfresh.
    rewrite E in Hfresh. apply Hfresh. apply elem_of_dom.
    destruct (decide (fresh (dom h) = df)) as [->|Hne].
    + rewrite lookup_insert_eq. by eexists.
    + rewrite lookup_insert_ne by done. by eexists.
  - rewrite Hr. f_equal. destruct f as [n m]. unfold sanitize_frame.
    cbn [n_rows columns] in *. f_equal.
    rewrite <- (map_fmap_id m) at 2. apply map_fmap_ext.
    intros k s Hk. destruct (Hclean k s Hk) as [Hd Hv].
    unfold id, sanitize_series. rewrite Hd. unfold column_where_notnull_none.
    destruct (is_object s || none_casts); [|reflexivity].
    destruct s as [d vs]. cbn [s_values s_dtype] in *. f_equal.
    + replace (forallb (fun c => negb (isnull c)) vs) with true; [reflexivity|].
      symmetry. apply forallb_forall. intros c Hc. rewrite Forall_forall in Hv.
      by rewrite (Hv c (proj2 (list_elem_of_In _ _) Hc)).
    + rewrite <- (list_fmap_id vs) at 2. apply list_fmap_ext.
      intros i c Hc. unfold fix_null. rewrite Forall_forall in Hv.
      by rewrite (Hv c (list_elem_of_lookup_2 _ _ _ Hc)).
Qed.

Lemma sanitize_clean_frame_unchanged_witness :
  let '(r, h') :=
    sanitize_dataframe true 2%positive (<[2%positive := clean_frame]> ∅) in
  r <> 2%positive /\ h' !! r = Some clean_frame.
Proof.
  apply (sanitize_clean_frame_unchanged true (<[2%positive := clean_frame]> ∅)
           2%positive clean_frame); [reflexivity|].
  apply map_Forall_insert_2; [by repeat constructor|].
  apply map_Forall_insert_2; [by repeat constructor|].
  apply map_Forall_empty.
Defined.

(** ** More on [upload_dataframe_to_mongo] *)

(** X16.  A call changes no collection but the configured one.  When one of
    the three connection variables is unset or empty, in the environment
    and in the .env file, it raises [ValueError] and changes no collection
    at all and prints nothing. *)
Theorem upload_touches_only_its_collection (w : world) (df : DataFrame)
    (drop_existing : bool) :
  let env := environ w ∪ dotenv w in
  let target : coll_ref :=
    (default "" (env !! "MONGO_URI"), default "" (env !! "MONGO_DB"),
     default "" (env !! "MONGO_COLLECTION")) in
  let '(res, w') := upload_dataframe_to_mongo df drop_existing w in
  (forall c, c <> target -> documents w' c = documents w c) /\
  (falsy (env !! "MONGO_URI") || falsy (env !! "MONGO_DB")
   || falsy (env !! "MONGO_COLLECTION") = true ->
   res = Raise ValueError /\ server w' = server w /\ stdout w' = stdout w).
Proof.
  intros env target. unfold upload_dataframe_to_mongo.
  cbn [load_dotenv environ]. fold env.
  destruct (falsy (env !! "MONGO_URI") || falsy (env !! "MONGO_DB")
            || falsy (env !! "MONGO_COLLECTION")) eqn:E.
  - repeat split; done.
  - fold target.
    destruct (negb (is_empty (to_dict_records df))), drop_existing;
      unfold documents, print, insert_many, documents, delete_many_all;
      cbn [server stdout environ dotenv];
      (split; [|done]); intros c Hc;
      rewrite ?lookup_insert_ne by done; reflexivity.
Qed.

(** X17.  With [drop_existing] false the documents already in the collection
    stay as they were, and what the call adds comes after them and is an
    initial part of the records of the frame.  When the call returns, all
    the records of the frame were added, and the message reports the number
    of rows of the frame, or that there was nothing to upload. *)
Theorem upload_without_drop_appends (w : world) (df : DataFrame)
    (uri db coll : string) :
  (environ w ∪ dotenv w) !! "MONGO_URI" = Some uri ->
  (environ w ∪ dotenv w) !! "MONGO_DB" = Some db ->
  (environ w ∪ dotenv w) !! "MONGO_COLLECTION" = Some coll ->
  uri <> "" -> db <> "" -> coll <> "" ->
  let '(res, w') := upload_dataframe_to_mongo df false w in
  (exists added,
     documents w' (uri, db, coll) = documents w (uri, db, coll) ++ added /\
     added `prefix_of` to_dict_records df /\
     (res = Ok tt -> added = to_dict_records df)) /\
  (res = Ok tt ->
   stdout w'
   = stdout w ++ [match n_rows df with
                  | O => NoRecordsToUpload
                  | S _ => Uploaded (n_rows df) db coll
                  end]).
Proof.
  intros Huri Hdb Hcoll Nuri Ndb Ncoll.
  unfold upload_dataframe_to_mongo. cbn [load_dotenv environ].
  rewrite Huri, Hdb, Hcoll, !falsy_set by done. cbn [orb default].
  rewrite <- (to_dict_records_length df).
  destruct (to_dict_records df) as [|d ds] eqn:E; cbn [is_empty negb length];
    unfold documents, print, insert_many, documents, load_dotenv;
    cbn [server stdout environ dotenv].
  - split; [|done]. exists []. by rewrite app_nil_r.
  - split; [|done]. exists (d :: ds). by rewrite lookup_insert_eq.
Qed.

Lemma upload_without_drop_appends_witness :
  let '(res, w') := upload_dataframe_to_mongo clean_frame false sample_world in
  exists added,
    documents w' ("mongodb://host", "marketing", "leads")
    = to_dict_records sample_frame ++ added /\
    added `prefix_of` to_dict_records clean_frame.
Proof.
  pose proof (upload_without_drop_appends sample_world clean_frame
                "mongodb://host" "marketing" "leads"
                eq_refl eq_refl eq_refl) as H.
  destruct (upload_dataframe_to_mongo clean_frame false sample_world) as [res w'].
  destruct H as ((added & Hdocs & Hpre & _) & _); [done..|].
  exists added. split; [exact Hdocs|exact Hpre].
Defined.

Lemma upload_configured (w : world) (df : DataFrame) (drop_existing : bool)
    (uri db coll : string) :
  (environ w ∪ dotenv w) !! "MONGO_URI" = Some uri ->
  (environ w ∪ dotenv w) !! "MONGO_DB" = Some db ->
  (environ w ∪ dotenv w) !! "MONGO_COLLECTION" = Some coll ->
  uri <> "" -> db <> "" -> coll <> "" ->
  let '(res, w') := upload_dataframe_to_mongo df drop_existing w in
  res = Ok tt /\
  environ w' = environ w ∪ dotenv w /\
  dotenv w' = dotenv w /\
  documents w' (uri, db, coll)
  = (if drop_existing then [] else documents w (uri, db, coll))
    ++ to_dict_records df.
Proof.
  intros Huri Hdb Hcoll Nuri Ndb Ncoll.
  unfold upload_dataframe_to_mongo. cbn [load_dotenv environ].
  rewrite Huri, Hdb, Hcoll, !falsy_set by done. cbn [orb default].
  destruct (to_dict_records df) as [|d ds] eqn:E, drop_existing;
    cbn [is_empty negb];
    unfold documents, print, insert_many, documents, delete_many_all, load_dotenv;
    cbn [server stdout environ dotenv];
    rewrite ?lookup_insert_eq, ?app_nil_r; done.
Qed.

Lemma union_twice_lookup (e d : gmap string string) (k : string) :
  ((e ∪ d) ∪ d) !! k = (e ∪ d) !! k.
Proof.
  rewrite (lookup_union (e ∪ d) d k), (lookup_union e d k).
  destruct (e !! k), (d !! k); reflexivity.
Qed.

(** X18.  With [drop_existing] true nothing of an earlier upload is left
    after the next one: after two calls the collection holds an initial
    part of the records of the second frame, and all of them when the
    second call returns; so uploading the same frame again, both calls
    returning, leaves the collection as it is. *)
Theorem upload_replaces_earlier_upload (w : world) (df1 df2 : DataFrame)
    (uri db coll : string) :
  (environ w ∪ dotenv w) !! "MONGO_URI" = Some uri ->
  (environ w ∪ dotenv w) !! "MONGO_DB" = Some db ->
  (environ w ∪ dotenv w) !! "MONGO_COLLECTION" = Some coll ->
  uri <> "" -> db <> "" -> coll <> "" ->
  let '(res1, w1) := upload_dataframe_to_mongo df1 true w in
  let '(res2, w2) := upload_dataframe_to_mongo df2 true w1 in
  documents w2 (uri, db, coll) `prefix_of` to_dict_records df2 /\
  (res2 = Ok tt -> documents w2 (uri, db, coll) = to_dict_records df2) /\
  (res1 = Ok tt -> res2 = Ok tt -> df1 = df2 ->
   documents w2 (uri, db, coll) = documents w1 (uri, db, coll)).
Proof.
  intros Huri Hdb Hcoll Nuri Ndb Ncoll.
  pose proof (upload_configured w df1 true uri db coll Huri Hdb Hcoll
                Nuri Ndb Ncoll) as H1.
  destruct (upload_dataframe_to_mongo df1 true w) as [res1 w1].
  destruct H1 as (_ & He & Hd & Hdocs1).
  pose proof (upload_configured w1 df2 true uri db coll) as H2.
  rewrite He, Hd, !union_twice_lookup in H2.
  specialize (H2 Huri Hdb Hcoll Nuri Ndb Ncoll).
  destruct (upload_dataframe_to_mongo df2 true w1) as [res2 w2].
  destruct H2 as (Hres & _ & _ & Hdocs2). cbn [app] in *.
  rewrite Hdocs1, Hdocs2. split; [done|]. split; [done|].
  by intros _ _ ->.
Qed.

Lemma upload_replaces_earlier_upload_witness :
  let '(res1, w1) := upload_dataframe_to_mongo sample_frame true sample_world in
  let '(res2, w2) := upload_dataframe_to_mongo clean_frame true w1 in
  documents w2 ("mongodb://host", "marketing", "leads")
    `prefix_of` to_dict_records clean_frame /\
  (res2 = Ok tt ->
   documents w2 ("mongodb://host", "marketing", "leads")
   = to_dict_records clean_frame).
Proof.
  pose proof (upload_replaces_earlier_upload sample_world sample_frame
                clean_frame "mongodb://host" "marketing" "leads"
                eq_refl eq_refl eq_refl) as H.
  destruct (upload_dataframe_to_mongo sample_frame true sample_world)
    as [res1 w1].
  destruct (upload_dataframe_to_mongo clean_frame true w1) as [res2 w2].
  destruct H as (Hpre & Hall & _); [done..|].
  split; [exact Hpre|exact Hall].
Defined.

(** ** The script *)

Lemma prepare_dataset_Ok_lead_clean (parse_date : pystr -> option Z)
    (campaigns : list Campaign) (leads : list Lead)
    (inscriptions : list Inscription) (out : list EnrichedRecord) (ld : Lead) :
  prepare_dataset parse_date campaigns leads inscriptions = Ok out ->
  ld ∈ leads ->
  date_ok parse_date (created_at ld) /\ currency_ok (cost ld).
Proof.
  intros H Hld.
  destruct (joined_keeps campaigns leads inscriptions ld Hld) as (j & Hj & <-).
  rewrite <- (prepare_dataset_sources parse_date _ _ _ _ H) in Hj.
  apply list_elem_of_fmap in Hj as (r & -> & Hr).
  destruct (prepare_dataset_row _ _ _ _ _ _ H Hr) as (j & _ & Hj).
  apply enrich_row_Ok in Hj as (lc & ? & cf & ? & Hlc & _ & Hcf & _ & ->).
  cbn. split; [by exists lc|by exists cf].
Qed.

(** X19.  A malformed date or cost in any lead stops the script before the
    upload: it ends with the exception, the collections, the environment
    and the output are as before, and the completion message is not
    printed. *)
Theorem script_aborts_before_upload
    (frame_of : list EnrichedRecord -> DataFrame) (none_casts : bool)
    (parse_date : pystr -> option Z) (campaigns : list Campaign)
    (leads : list Lead) (inscriptions : list Inscription) (h0 : heap)
    (w : world) (ld : Lead) :
  ld ∈ leads ->
  ~ (date_ok parse_date (created_at ld) /\ currency_ok (cost ld)) ->
  etl_script frame_of none_casts parse_date campaigns leads inscriptions h0 w
  = (Raise ValueError, w, []).
Proof.
  intros Hld Hbad. unfold etl_script.
  destruct (prepare_dataset parse_date campaigns leads inscriptions)
    as [rows|[]] eqn:E; [|reflexivity].
  exfalso. apply Hbad. by apply (prepare_dataset_Ok_lead_clean _ _ _ _ _ _ E).
Qed.

Lemma script_aborts_before_upload_witness :
  etl_script flags_frame true no_text_dates [campaign_a]
    [lead_L1; mkLead None C1 (DText (lit "yesterday")) None] [three_days]
    ∅ sample_world
  = (Raise ValueError, sample_world, []).
Proof.
  apply (script_aborts_before_upload flags_frame true no_text_dates [campaign_a]
           [lead_L1; mkLead None C1 (DText (lit "yesterday")) None] [three_days]
           ∅ sample_world (mkLead None C1 (DText (lit "yesterday")) None)).
  - apply list_elem_of_further, list_elem_of_here.
  - intros [[t Ht] _]. discriminate Ht.
Defined.

(** X20.  When the script ends normally with the connection configured, the
    enrichment has returned, the completion message is the script's only
    output, and the collection holds the records of the sanitized enriched
    table and nothing else: as many documents as the enrichment produced
    records, whatever the collection held before.  When the script ends
    with an exception the completion message is not printed. *)
Theorem script_replaces_collection
    (frame_of : list EnrichedRecord -> DataFrame) (none_casts : bool)
    (parse_date : pystr -> option Z) (campaigns : list Campaign)
    (leads : list Lead) (inscriptions : list Inscription) (h0 : heap)
    (w : world) (uri db coll : string) :
  (forall rows, n_rows (frame_of rows) = length rows) ->
  (environ w ∪ dotenv w) !! "MONGO_URI" = Some uri ->
  (environ w ∪ dotenv w) !! "MONGO_DB" = Some db ->
  (environ w ∪ dotenv w) !! "MONGO_COLLECTION" = Some coll ->
  uri <> "" -> db <> "" -> coll <> "" ->
  let '(res, w', out) :=
    etl_script frame_of none_casts parse_date campaigns leads inscriptions
      h0 w in
  (res = Ok tt ->
   exists rows,
     prepare_dataset parse_date campaigns leads inscriptions = Ok rows /\
     out = [EtlCompleted] /\
     documents w' (uri, db, coll)
     = to_dict_records (sanitize_frame none_casts (frame_of rows)) /\
     length (documents w' (uri, db, coll))
     = sum_list (multiplicity campaigns inscriptions <$> leads)) /\
  (forall e, res = Raise e -> out = []).
Proof.
  intros Hn Huri Hdb Hcoll Nuri Ndb Ncoll.
  unfold etl_script.
  destruct (prepare_dataset parse_date campaigns leads inscriptions)
    as [rows|e0] eqn:Hrows; [|split; [discriminate|reflexivity]].
  unfold alloc.
  pose proof (sanitize_dataframe_result none_casts
                (<[fresh (dom h0) := frame_of rows]> h0)
                (fresh (dom h0)) (frame_of rows)
                (lookup_insert_eq _ _ _)) as Hs.
  destruct (sanitize_dataframe none_casts _ _) as [r h'].
  rewrite (lookup_total_correct _ _ _ Hs).
  pose proof (upload_configured w (sanitize_frame none_casts (frame_of rows))
                true uri db coll Huri Hdb Hcoll Nuri Ndb Ncoll) as Hu.
  destruct (upload_dataframe_to_mongo _ true w) as [res w'].
  destruct Hu as (-> & _ & _ & Hdocs). cbn [app] in Hdocs.
  split; [|discriminate]. intros _. exists rows.
  split; [reflexivity|]. split; [reflexivity|]. split; [exact Hdocs|].
  rewrite Hdocs, to_dict_records_length. cbn [sanitize_frame n_rows].
  rewrite Hn, (prepare_dataset_length parse_date _ _ _ _ Hrows).
  apply joined_length.
Qed.

Lemma script_replaces_collection_witness :
  let '(res, w', out) :=
    etl_script flags_frame false no_text_dates [campaign_a; campaign_b]
      [lead_L1] [three_days] sample_heap sample_world in
  res = Ok tt /\
  out = [EtlCompleted] /\
  length (documents w' ("mongodb://host", "marketing", "leads")) = 2%nat.
Proof.
  assert ((etl_script flags_frame false no_text_dates [campaign_a; campaign_b]
             [lead_L1] [three_days] sample_heap sample_world).1.1 = Ok tt)
    as Hres by (vm_compute; reflexivity).
  pose proof (script_replaces_collection flags_frame false no_text_dates
                [campaign_a; campaign_b] [lead_L1] [three_days] sample_heap
                sample_world "mongodb://host" "marketing" "leads"
                (fun rows => eq_refl) eq_refl eq_refl eq_refl) as H.
  destruct (etl_script flags_frame false no_text_dates [campaign_a; campaign_b]
              [lead_L1] [three_days] sample_heap sample_world)
    as [[res w'] out].
  destruct H as [H _]; [done..|].
  destruct (H Hres) as (rows & _ & Hout & _ & Hlen).
  split; [exact Hres|]. split; [exact Hout|]. exact Hlen.
Defined.

(** ** Which texts [float] accepts *)

Lemma span_digits_spec (s ds r : pystr) :
  span_digits s = (ds, r) ->
  exists pre, s = pre ++ r /\ Forall (fun c => is_digit c = true) pre.
Proof.
  revert ds r. induction s as [|c s IH]; intros ds r; cbn [span_digits].
  - intros [= <- <-]. by exists [].
  - destruct (is_digit c) eqn:Ec.
    + destruct (span_digits s) as [ds' r'] eqn:Es. intros [= <- <-].
      destruct (IH ds' r' eq_refl) as (pre & -> & Hpre).
      exists (c :: pre). split; [reflexivity|by constructor].
    + intros [= <- <-]. by exists [].
Qed.

Lemma take_sign_spec (s : pystr) :
  exists sg, s = sg ++ (take_sign s).2
             /\ Forall (fun c => numchar c = true) sg.
Proof.
  destruct s as [|c s]; [by exists []|].
  destruct (decide (c = 45%N)) as [->|H1]; [exists [45%N]; by repeat constructor|].
  destruct (decide (c = 43%N)) as [->|H2]; [exists [43%N]; by repeat constructor|].
  exists []. split; [|constructor].
  cbn [app]. destruct c as [|p]; [reflexivity|].
  do 6 (destruct p as [p|p|]; try reflexivity); done.
Qed.

Lemma digits_numchar (pre : pystr) :
  Forall (fun c => is_digit c = true) pre ->
  Forall (fun c => numchar c = true) pre.
Proof.
  intros H. eapply Forall_impl; [exact H|].
  intros c Hc. unfold numchar. by rewrite Hc.
Qed.

(** A text that [parse_number] accepts consists of number characters, and
    its value is finite. *)
Lemma parse_number_Some (t : pystr) (v : pyfloat) :
  parse_number t = Some v ->
  Forall (fun c => numchar c = true) t /\ exists q, v = FNum q.
Proof.
  unfold parse_number.
  destruct (take_sign_spec t) as (sg & Ht & Hsg).
  destruct (take_sign t) as [neg s1]. cbn [snd] in Ht.
  destruct (span_digits s1) as [ip s2] eqn:E1.
  destruct (span_digits_spec _ _ _ E1) as (pre1 & -> & Hpre1).
  assert (exists fp s3 mid,
            match s2 with
            | 46%N :: t0 => span_digits t0
            | _ => ([], s2)
            end = (fp, s3)
            /\ s2 = mid ++ s3 /\ Forall (fun c => numchar c = true) mid)
    as (fp & s3 & mid & -> & -> & Hmid).
  { destruct (decide (head s2 = Some 46%N)) as [Hh|Hh].
    - destruct s2 as [|c t0]; [done|]. injection Hh as ->.
      destruct (span_digits t0) as [fp s3] eqn:E2.
      destruct (span_digits_spec _ _ _ E2) as (pre2 & -> & Hpre2).
      exists fp, s3, (46%N :: pre2). split; [reflexivity|].
      split; [reflexivity|]. constructor; [reflexivity|].
      by apply digits_numchar.
    - exists [], s2, []. split; [|split; [reflexivity|constructor]].
      destruct s2 as [|c t0]; [reflexivity|].
      destruct c as [|p]; [reflexivity|].
      do 6 (destruct p as [p|p|]; try reflexivity). done. }
  destruct (ip ++ fp); [done|].
  assert (Forall (fun c => numchar c = true) (sg ++ pre1 ++ mid)) as Hhead.
  { rewrite !Forall_app. repeat split; try done. by apply digits_numchar. }
  destruct s3 as [|c t3].
  - intros [= <-]. subst t. rewrite app_nil_r. split; [exact Hhead|].
    unfold decimal_value. by eexists.
  - destruct ((c =? 101) || (c =? 69))%N eqn:Ec; [|done].
    destruct (take_sign_spec t3) as (sg' & Ht3 & Hsg').
    destruct (take_sign t3) as [eneg s4]. cbn [snd] in Ht3.
    destruct (span_digits s4) as [ed s5] eqn:E3.
    destruct (span_digits_spec _ _ _ E3) as (pre3 & -> & Hpre3).
    destruct ed; [done|]. destruct s5; [|done].
    intros [= <-]. subst t t3. split.
    + rewrite app_nil_r, !app_assoc.
      rewrite <- (app_assoc _ _ (c :: _)). cbn [app].
      rewrite !Forall_app, Forall_cons, !Forall_app in *.
      repeat split; try tauto; try (by apply digits_numchar).
      unfold numchar.
      apply orb_true_iff in Ec as [->| ->]; by rewrite ?orb_true_r.
    + unfold decimal_value. by eexists.
Qed.

Lemma tolower_letters (l : pystr) (s : pystr) :
  map tolower s = l ->
  Forall (fun c => inf_nan_letter c = true) l ->
  Forall (fun c => inf_nan_letter c = true) s.
Proof.
  intros <- H. apply Forall_forall. intros c Hc. rewrite Forall_forall in H.
  assert (tolower c ∈ map tolower s) as Hin
    by (apply list_elem_of_In, in_map; by apply list_elem_of_In).
  specialize (H _ Hin). unfold inf_nan_letter in *.
  assert (tolower (tolower c) = tolower c) as Hid.
  { unfold tolower.
    destruct ((65 <=? c) && (c <=? 90))%N eqn:E; [|by rewrite E].
    apply andb_true_iff in E as [E1 E2].
    apply N.leb_le in E1. apply N.leb_le in E2.
    replace ((65 <=? c + 32) && (c + 32 <=? 90))%N with false; [done|].
    symmetry. apply andb_false_iff. right. apply N.leb_gt. lia. }
  cbv zeta in H. by rewrite Hid in H.
Qed.

(** A text that [parse_inf_or_nan] accepts consists of a sign and letters
    of inf or nan. *)
Lemma parse_inf_or_nan_Some (t : pystr) (v : pyfloat) :
  parse_inf_or_nan t = Some v ->
  Forall (fun c => numchar c || inf_nan_letter c = true) t.
Proof.
  unfold parse_inf_or_nan.
  destruct (take_sign_spec t) as (sg & Ht & Hsg).
  destruct (take_sign t) as [neg s1]. cbn [snd] in Ht.
  intros H.
  assert (Forall (fun c => inf_nan_letter c = true) s1) as Hs1.
  { destruct (bool_decide (map tolower s1 = lit "inf")) eqn:E1.
    - apply bool_decide_eq_true in E1.
      apply (tolower_letters _ _ E1). by repeat constructor.
    - destruct (bool_decide (map tolower s1 = lit "infinity")) eqn:E2.
      + apply bool_decide_eq_true in E2.
        apply (tolower_letters _ _ E2). by repeat constructor.
      + cbn [orb] in H.
        destruct (bool_decide (map tolower s1 = lit "nan")) eqn:E3; [|done].
        apply bool_decide_eq_true in E3.
        apply (tolower_letters _ _ E3). by repeat constructor. }
  rewrite Ht. apply Forall_app. split.
  - eapply Forall_impl; [exact Hsg|]. intros c ->. reflexivity.
  - eapply Forall_impl; [exact Hs1|]. intros c ->. apply orb_true_r.
Qed.

Lemma take_sign_sign (s : pystr) :
  exists sg, s = sg ++ (take_sign s).2
             /\ Forall (fun c => c = 43%N \/ c = 45%N) sg.
Proof.
  destruct s as [|c s]; [by exists []|].
  destruct (decide (c = 45%N)) as [->|H1];
    [exists [45%N]; split; [reflexivity|repeat constructor; by right]|].
  destruct (decide (c = 43%N)) as [->|H2];
    [exists [43%N]; split; [reflexivity|repeat constructor; by left]|].
  exists []. split; [|constructor].
  cbn [app]. destruct c as [|p]; [reflexivity|].
  do 6 (destruct p as [p|p|]; try reflexivity); done.
Qed.

(** A text that [parse_inf_or_nan] accepts holds no digit: signs and
    letters only. *)
Lemma parse_inf_or_nan_letters (t : pystr) (v : pyfloat) :
  parse_inf_or_nan t = Some v ->
  Forall (fun c => c = 43%N \/ c = 45%N \/ inf_nan_letter c = true) t.
Proof.
  unfold parse_inf_or_nan.
  destruct (take_sign_sign t) as (sg & Ht & Hsg).
  destruct (take_sign t) as [neg s1]. cbn [snd] in Ht.
  intros H.
  assert (Forall (fun c => inf_nan_letter c = true) s1) as Hs1.
  { destruct (bool_decide (map tolower s1 = lit "inf")) eqn:E1.
    - apply bool_decide_eq_true in E1.
      apply (tolower_letters _ _ E1). by repeat constructor.
    - destruct (bool_decide (map tolower s1 = lit "infinity")) eqn:E2.
      + apply bool_decide_eq_true in E2.
        apply (tolower_letters _ _ E2). by repeat constructor.
      + cbn [orb] in H.
        destruct (bool_decide (map tolower s1 = lit "nan")) eqn:E3; [|done].
        apply bool_decide_eq_true in E3.
        apply (tolower_letters _ _ E3). by repeat constructor. }
  rewrite Ht. apply Forall_app. split.
  - eapply Forall_impl; [exact Hsg|]. intros c [->| ->]; tauto.
  - eapply Forall_impl; [exact Hs1|]. intros c Hc. tauto.
Qed.

Lemma lstrip_by_keeps (sp : N -> bool) (t : pystr) (x : N) :
  x ∈ t -> sp x = false -> x ∈ lstrip_by sp t.
Proof.
  intros Hin Hx. induction Hin as [x t|x c t Hin IH]; cbn [lstrip_by].
  - rewrite Hx. apply list_elem_of_here.
  - destruct (sp c); [by apply IH|by apply list_elem_of_further].
Qed.

Lemma strip_by_keeps (sp : N -> bool) (t : pystr) (x : N) :
  x ∈ t -> sp x = false -> x ∈ strip_by sp t.
Proof.
  intros Hin Hx. unfold strip_by, rstrip_by.
  apply list_elem_of_In, in_rev. rewrite rev_involutive. apply list_elem_of_In.
  apply lstrip_by_keeps; [|exact Hx].
  apply list_elem_of_In, in_rev. rewrite rev_involutive. apply list_elem_of_In.
  by apply lstrip_by_keeps.
Qed.

(** A character that is neither white space nor a digit above ASCII either
    passes the conversion to ASCII, or the text is cut with a question
    mark. *)
Lemma to_ascii_keeps (t : pystr) (x : N) :
  x ∈ t -> isspace x = false ->
  ((x <? 127)%N = true \/ todecimal x = None) ->
  ((x <? 127)%N = true /\ x ∈ to_ascii t) \/ 63%N ∈ to_ascii t.
Proof.
  intros Hin Hsp Hx. induction Hin as [x t|x c t Hin IH]; cbn [to_ascii].
  - destruct (x <? 127)%N eqn:E; [left; split; [done|apply list_elem_of_here]|].
    rewrite Hsp. destruct Hx as [|Hx]; [done|]. rewrite Hx.
    right. apply list_elem_of_here.
  - destruct (IH Hsp Hx) as [[H1 H2]|H].
    + destruct (c <? 127)%N; [left; split; [done|by apply list_elem_of_further]|].
      destruct (isspace c); [left; split; [done|by apply list_elem_of_further]|].
      destruct (todecimal c);
        [left; split; [done|by apply list_elem_of_further]|].
      right. apply list_elem_of_here.
    + right. destruct (c <? 127)%N; [by apply list_elem_of_further|].
      destruct (isspace c); [by apply list_elem_of_further|].
      destruct (todecimal c); [by apply list_elem_of_further|].
      apply list_elem_of_here.
Qed.

Lemma drop_underscores_keeps (t t' : pystr) (prev x : N) :
  drop_underscores prev t = Some t' -> x ∈ t -> x <> UNDERSCORE -> x ∈ t'.
Proof.
  revert prev t'. induction t as [|c t IH]; intros prev t' H Hin Hx.
  - by apply not_elem_of_nil in Hin.
  - cbn [drop_underscores] in H.
    destruct (N.eqb_spec c UNDERSCORE) as [->|Hc].
    + destruct (is_digit prev); [|done].
      apply elem_of_cons in Hin as [->|Hin]; [done|]. by apply (IH _ _ H).
    + destruct ((prev =? UNDERSCORE)%N && negb (is_digit c)); [done|].
      destruct (drop_underscores c t) as [k|] eqn:Ek; [|done].
      cbn in H. injection H as <-.
      apply elem_of_cons in Hin as [->|Hin]; [apply list_elem_of_here|].
      apply list_elem_of_further. by apply (IH _ _ Ek).
Qed.

Lemma c_isspace_isspace (c : N) : isspace c = false -> c_isspace c = false.
Proof.
  unfold isspace, c_isspace. intros H.
  destruct ((9 <=? c) && (c <=? 13))%N eqn:E1; [done|].
  cbn [orb] in *. destruct (c =? 32)%N eqn:E2; [|done].
  apply N.eqb_eq in E2. subst c. discriminate H.
Qed.

(** A character that survives to the number parser. *)
Lemma survives_to_parser (t t' : pystr) (x : N) :
  x ∈ t -> isspace x = false ->
  ((x <? 127)%N = true \/ todecimal x = None) ->
  x <> UNDERSCORE ->
  drop_underscores 0%N (strip_by c_isspace (to_ascii t)) = Some t' ->
  x ∈ t' \/ 63%N ∈ t'.
Proof.
  intros Hin Hsp Hx Hu Hd.
  destruct (to_ascii_keeps t x Hin Hsp Hx) as [[_ H]|H].
  - left. apply (drop_underscores_keeps _ _ _ _ Hd); [|exact Hu].
    apply strip_by_keeps; [exact H|by apply c_isspace_isspace].
  - right. apply (drop_underscores_keeps _ _ _ _ Hd); [|done].
    by apply strip_by_keeps.
Qed.

Lemma normalise_keeps (s : pystr) (c : N) :
  c ∈ s -> isspace c = false -> spec_translate c = [c] -> c ∈ normalise s.
Proof.
  intros Hin Hsp Htr. rewrite normalise_spec. unfold spec_normalise, strip.
  apply strip_by_keeps; [|exact Hsp].
  apply list_elem_of_In, in_flat_map. exists c.
  split; [by apply list_elem_of_In|]. rewrite Htr. by left.
Qed.

(** X21.  A text that holds a character which is none of: white space, a
    decimal digit, the euro sign, a point, a comma, an underscore, a sign,
    the letter e, or a letter of inf or nan, makes [parse_currency] raise
    [ValueError]; so does, for instance, any other currency symbol or
    currency code. *)
Theorem foreign_character_raises (s : pystr) (c : N) :
  c ∈ s -> currency_char c = false ->
  parse_currency (Some s) = Raise ValueError.
Proof.
  intros Hin Hc. unfold currency_char in Hc.
  apply orb_false_iff in Hc as [Hc Hlet].
  apply orb_false_iff in Hc as [Hc Hnum].
  apply orb_false_iff in Hc as [Hc Hus].
  apply orb_false_iff in Hc as [Hc Hcomma].
  apply orb_false_iff in Hc as [Hc Hnbsp].
  apply orb_false_iff in Hc as [Hc Heuro].
  apply orb_false_iff in Hc as [Hc Hdec'].
  assert (todecimal c = None) as Hdec by (by destruct (todecimal c)).
  assert ((c =? DOT)%N = false) as Hdot.
  { unfold numchar in Hnum.
    apply orb_false_iff in Hnum as [Hnum _].
    apply orb_false_iff in Hnum as [Hnum _].
    by apply orb_false_iff in Hnum as [_ Hnum]. }
  assert (spec_translate c = [c]) as Htr.
  { unfold spec_translate. by rewrite Heuro, Hnbsp, Hdot, Hcomma. }
  pose proof (normalise_keeps s c Hin Hc Htr) as Hn.
  unfold parse_currency, float.
  destruct (parse_float (normalise s)) as [v|] eqn:E; [|reflexivity].
  exfalso. unfold parse_float in E.
  destruct (drop_underscores 0%N (strip_by c_isspace (to_ascii (normalise s))))
    as [t'|] eqn:Ed; [|done].
  cbn [mbind option_bind] in E.
  assert (c <> UNDERSCORE) as Hu by (by apply N.eqb_neq).
  assert (exists y, y ∈ t' /\ numchar y = false /\ inf_nan_letter y = false)
    as (y & Hy & Hy1 & Hy2).
  { destruct (survives_to_parser _ _ c Hn Hc (or_intror Hdec) Hu Ed) as [Hy|Hy].
    - by exists c.
    - by exists 63%N. }
  destruct (parse_number t') as [v'|] eqn:Ep.
  - apply parse_number_Some in Ep as [Hall _].
    rewrite Forall_forall in Hall. specialize (Hall y Hy). congruence.
  - apply parse_inf_or_nan_Some in E.
    rewrite Forall_forall in E. specialize (E y Hy).
    rewrite Hy1, Hy2 in E. done.
Qed.

Lemma foreign_character_raises_witness :
  parse_currency (Some (lit "12,50 EUR")) = Raise ValueError /\
  parse_currency (Some (lit "$1,234.56")) = Raise ValueError.
Proof.
  split.
  - apply (foreign_character_raises (lit "12,50 EUR") 85%N); [|reflexivity].
    do 7 apply list_elem_of_further. apply list_elem_of_here.
  - apply (foreign_character_raises (lit "$1,234.56") 36%N); [|reflexivity].
    apply list_elem_of_here.
Defined.

(** X22.  When the text holds an ASCII digit, [parse_currency] either
    raises or returns the float of a decimal number: never NaN, the value
    that stands for a missing amount. *)
Theorem digit_text_is_never_null (s : pystr) (c : N) (x : pyfloat) :
  c ∈ s -> is_digit c = true ->
  parse_currency (Some s) = Ok x ->
  isnan x = false.
Proof.
  intros Hin Hc. unfold parse_currency, float.
  destruct (parse_float (normalise s)) as [v|] eqn:E; [|done].
  intros [= <-]. unfold parse_float in E.
  destruct (drop_underscores 0%N (strip_by c_isspace (to_ascii (normalise s))))
    as [t'|] eqn:Ed; [|done].
  cbn [mbind option_bind] in E.
  destruct (digit_plain c Hc) as (H127 & Hsp & _ & Hu).
  pose proof (normalise_keeps s c Hin Hsp (digit_translate c Hc)) as Hn.
  assert (exists y, y ∈ t' /\ y <> 43%N /\ y <> 45%N /\ inf_nan_letter y = false)
    as (y & Hy & Hy1 & Hy2 & Hy3).
  { destruct (survives_to_parser _ _ c Hn Hsp (or_introl H127)
                (proj1 (N.eqb_neq _ _) Hu) Ed) as [Hy|Hy].
    - exists c. split; [exact Hy|].
      destruct (is_digit_cases c Hc)
        as [->|[->|[->|[->|[->|[->|[->|[->|[->| ->]]]]]]]]]; done.
    - by exists 63%N. }
  destruct (parse_number t') as [v'|] eqn:Ep.
  - injection E as <-. by apply parse_number_Some in Ep as [_ [q ->]].
  - exfalso. apply parse_inf_or_nan_letters in E.
    rewrite Forall_forall in E. specialize (E y Hy).
    destruct E as [?|[?|?]]; congruence.
Qed.

Lemma digit_text_is_never_null_witness :
  exists x, parse_currency (Some (lit "0,00")) = Ok x /\ isnan x = false.
Proof.
  eexists. split; [reflexivity|].
  apply (digit_text_is_never_null (lit "0,00") 48%N);
    [apply list_elem_of_here|reflexivity|reflexivity].
Defined.
